(** * Toki messaging backend: delivery, read receipts, edits and presence

    A shallow embedding of the socket handlers
    ([src/socket/handlers/messageHandler.js], [src/socket/index.js],
    [src/socket/handlers/typingHandler.js], the status query of
    [src/socket/handlers/presenceHandler.js]) and of the REST fallback
    routes ([src/routes/messages.js]), with the SQL statements they send to
    the store interpreted over two tables.

    Conventions.
    - A JavaScript string is a list of UTF-16 code units; [content.length]
      is the length of that list.
    - Identifiers (user ids, message ids, socket ids, correlation ids) are
      [string]s; a property missing from an event payload is [None].
    - A text parameter reaches the store as UTF-8: the store refuses a
      text that holds U+0000, and holds an unpaired surrogate as U+FFFD
      ([pg_text]).
    - A handler is a computation in the monad [M]: it reads and writes the
      world (store, connection registry), may be interrupted by a store
      call that throws, and appends to a trace every statement the store
      completed and every event, acknowledgement or HTTP response it
      issued, in program order.
    - A store call throws when the store refuses a text, and whenever the
      fault schedule [w_faults] of the world says so: the schedule stands
      for every other reason the store has to throw, such as an id it
      cannot read as a UUID or a lost connection. *)

From stdpp Require Import gmap strings list sorting.
From Stdlib Require Import ZArith.

Set Default Proof Using "Type".

(** ** JavaScript strings *)

Definition jsstring := list N.

Definition js (s : string) : jsstring :=
  map Ascii.N_of_ascii (String.list_ascii_of_string s).

(** [WhiteSpace] and [LineTerminator] code points of ECMAScript, the ones
    [String.prototype.trim] strips. *)
Definition isWhiteSpace (c : N) : bool :=
  ((c =? 9) || (c =? 10) || (c =? 11) || (c =? 12) || (c =? 13)
   || (c =? 32) || (c =? 160) || (c =? 5760)
   || ((8192 <=? c) && (c <=? 8202))
   || (c =? 8232) || (c =? 8233) || (c =? 8239) || (c =? 8287)
   || (c =? 12288) || (c =? 65279))%N.

Fixpoint trimStart (s : jsstring) : jsstring :=
  match s with
  | [] => []
  | c :: s' => if isWhiteSpace c then trimStart s' else s
  end.

Definition trimEnd (s : jsstring) : jsstring :=
  reverse (trimStart (reverse s)).

Definition trim (s : jsstring) : jsstring := trimEnd (trimStart s).

(** *** Text on its way to the store *)

Definition isHighSurrogate (c : N) : bool := ((55296 <=? c) && (c <=? 56319))%N.
Definition isLowSurrogate (c : N) : bool := ((56320 <=? c) && (c <=? 57343))%N.

(** A JavaScript string written out as UTF-8 and read back, which is what
    a text parameter of [query] goes through on its way to the store and
    what a text column comes back as: a high surrogate followed by a low
    one is a character and is kept; any other surrogate is replaced by
    U+FFFD. *)
Fixpoint utf8 (s : jsstring) : jsstring :=
  match s with
  | [] => []
  | h :: s' =>
      if isHighSurrogate h then
        match s' with
        | l :: s'' =>
            if isLowSurrogate l then h :: l :: utf8 s''
            else 65533%N :: utf8 s'
        | [] => [65533%N]
        end
      else if isLowSurrogate h then 65533%N :: utf8 s'
      else h :: utf8 s'
  end.

(** A text parameter as the store takes it: PostgreSQL refuses a text
    that holds U+0000 (the statement throws), and holds any other text in
    its UTF-8 form. *)
Definition pg_text (c : jsstring) : option jsstring :=
  if bool_decide (0%N ∈ c) then None else Some (utf8 c).

(** ** The store: tables [users] and [messages] *)

Record user_row := {
  username : string;
  is_online : bool;
  last_seen : option Z
}.

Record message_row := {
  row_id : string;
  sender_id : string;
  receiver_id : string;
  content : jsstring;
  created_at : Z;
  is_read : bool;
  read_at : option Z;
  is_deleted : bool;
  deleted_at : option Z;
  is_edited : bool;
  edited_at : option Z;
  original_content : option jsstring
}.

Record store := {
  users : gmap string user_row;
  messages : list message_row
}.

Definition with_messages (ms : list message_row) (d : store) : store :=
  {| users := users d; messages := ms |}.

Definition with_users (us : gmap string user_row) (d : store) : store :=
  {| users := us; messages := messages d |}.

(** User ids are UUIDs, so no row of [users] has the empty string as id. *)
Definition store_wf (d : store) : Prop := users d !! "" = None.

(** *** Statements *)

(** [SELECT id, username FROM users WHERE id = $1] *)
Definition sql_select_user (uid : string) (d : store) : list (string * user_row) :=
  match users d !! uid with
  | Some u => [(uid, u)]
  | None => []
  end.

(** Column defaults of [messages] for an [INSERT] of sender, receiver and
    content; the id and the timestamp are generated by the store. *)
Definition new_row (uuid : string) (now : Z)
    (sender receiver : string) (c : jsstring) : message_row :=
  {| row_id := uuid; sender_id := sender; receiver_id := receiver;
     content := c; created_at := now; is_read := false; read_at := None;
     is_deleted := false; deleted_at := None;
     is_edited := false; edited_at := None; original_content := None |}.

(** [INSERT INTO messages (sender_id, receiver_id, content)
     VALUES ($1, $2, $3) RETURNING ...]; [None] when the store refuses the
    text of [$3]. The row holds the text as the store takes it. *)
Definition sql_insert_message (uuid : string) (now : Z)
    (sender receiver : string) (c : jsstring) (d : store)
    : option (message_row * store) :=
  match pg_text c with
  | None => None
  | Some stored =>
      let r := new_row uuid now sender receiver stored in
      Some (r, with_messages (messages d ++ [r]) d)
  end.

Definition set_read (readAt : Z) (r : message_row) : message_row :=
  {| row_id := row_id r; sender_id := sender_id r;
     receiver_id := receiver_id r; content := content r;
     created_at := created_at r; is_read := true; read_at := Some readAt;
     is_deleted := is_deleted r; deleted_at := deleted_at r;
     is_edited := is_edited r; edited_at := edited_at r;
     original_content := original_content r |}.

(** The [WHERE] clause of the read update:
    [id = ANY($2) AND receiver_id = $3 AND is_read = false]. *)
Definition read_target (ids : list string) (reader : string)
    (r : message_row) : bool :=
  bool_decide (row_id r ∈ ids) && bool_decide (receiver_id r = reader)
  && negb (is_read r).

(** [UPDATE messages SET is_read = true, read_at = $1
     WHERE id = ANY($2) AND receiver_id = $3 AND is_read = false] *)
Definition sql_mark_read (readAt : Z) (ids : list string) (reader : string)
    (d : store) : store :=
  with_messages
    (map (fun r => if read_target ids reader r then set_read readAt r else r)
       (messages d)) d.

(** A row of the history query: the message columns read by the handler
    and [u.username as sender_username]. *)
Record history_row := {
  h_msg : message_row;
  sender_username : string
}.

Definition in_conversation (me partner : string) (r : message_row) : bool :=
  (bool_decide (sender_id r = me) && bool_decide (receiver_id r = partner))
  || (bool_decide (sender_id r = partner) && bool_decide (receiver_id r = me)).

Definition before_cursor (before : option Z) (r : message_row) : bool :=
  match before with
  | Some t => bool_decide (created_at r < t)%Z
  | None => true
  end.

(** [FROM messages m JOIN users u ON m.sender_id = u.id] *)
Definition join_sender (d : store) (r : message_row) : option history_row :=
  u ← users d !! sender_id r;
  Some {| h_msg := r; sender_username := username u |}.

(** [ORDER BY m.created_at DESC]: the later row first. *)
Definition newer_first (a b : history_row) : Prop :=
  (created_at (h_msg b) ≤ created_at (h_msg a))%Z.

Global Instance newer_first_dec a b : Decision (newer_first a b) :=
  Z_le_dec (created_at (h_msg b)) (created_at (h_msg a)).

(** [SELECT ... FROM messages m JOIN users u ON m.sender_id = u.id
     WHERE ((m.sender_id = $1 AND m.receiver_id = $2)
         OR (m.sender_id = $2 AND m.receiver_id = $1))
     [AND m.created_at < $3] ORDER BY m.created_at DESC LIMIT $n] *)
Definition sql_select_history (me partner : string) (before : option Z)
    (limit : nat) (d : store) : list history_row :=
  take limit
    (merge_sort newer_first
       (omap (join_sender d)
          (filter (fun r => in_conversation me partner r
                            && before_cursor before r)
             (messages d)))).

(** [SELECT id, sender_id, receiver_id, content, is_deleted FROM messages
     WHERE id = $1] *)
Definition sql_select_message (mid : string) (d : store) : list message_row :=
  filter (fun r => row_id r = mid) (messages d).

Definition tombstone : jsstring := js "[Message deleted]".

Definition set_deleted (now : Z) (r : message_row) : message_row :=
  {| row_id := row_id r; sender_id := sender_id r;
     receiver_id := receiver_id r; content := tombstone;
     created_at := created_at r; is_read := is_read r; read_at := read_at r;
     is_deleted := true; deleted_at := Some now;
     is_edited := is_edited r; edited_at := edited_at r;
     original_content := original_content r |}.

(** [UPDATE messages SET is_deleted = true, deleted_at = NOW(),
     content = '[Message deleted]' WHERE id = $1] *)
Definition sql_soft_delete (now : Z) (mid : string) (d : store) : store :=
  with_messages
    (map (fun r => if bool_decide (row_id r = mid) then set_deleted now r else r)
       (messages d)) d.

(** [COALESCE(original_content, $2)] *)
Definition coalesce (o : option jsstring) (x : jsstring) : option jsstring :=
  match o with
  | Some y => Some y
  | None => Some x
  end.

Definition set_edited_tracked (now : Z) (c old : jsstring) (r : message_row)
    : message_row :=
  {| row_id := row_id r; sender_id := sender_id r;
     receiver_id := receiver_id r; content := c;
     created_at := created_at r; is_read := is_read r; read_at := read_at r;
     is_deleted := is_deleted r; deleted_at := deleted_at r;
     is_edited := true; edited_at := Some now;
     original_content := coalesce (original_content r) old |}.

(** An [UPDATE ... RETURNING]: the rows for which [hit] holds are replaced
    by their image under [f]; the statement returns the new rows. *)
Definition update_returning (hit : message_row -> bool)
    (f : message_row -> message_row) (d : store)
    : list message_row * store :=
  (map f (filter (fun r => hit r) (messages d)),
   with_messages (map (fun r => if hit r then f r else r) (messages d)) d).

(** [UPDATE messages SET content = $1, is_edited = true, edited_at = NOW(),
     original_content = COALESCE(original_content, $2) WHERE id = $3
     RETURNING ...], the statement of the REST edit; [None] when the store
    refuses the text of [$1] or of [$2]. *)
Definition sql_update_edit (now : Z) (c old : jsstring) (mid : string)
    (d : store) : option (list message_row * store) :=
  match pg_text c, pg_text old with
  | Some stored, Some stored_old =>
      Some (update_returning (fun r => bool_decide (row_id r = mid))
              (set_edited_tracked now stored stored_old) d)
  | _, _ => None
  end.

Definition set_edited (now : Z) (c : jsstring) (r : message_row)
    : message_row :=
  {| row_id := row_id r; sender_id := sender_id r;
     receiver_id := receiver_id r; content := c;
     created_at := created_at r; is_read := is_read r; read_at := read_at r;
     is_deleted := is_deleted r; deleted_at := deleted_at r;
     is_edited := true; edited_at := Some now;
     original_content := original_content r |}.

(** [UPDATE messages SET content = $1, is_edited = true, edited_at = NOW()
     WHERE id = $2 AND sender_id = $3 RETURNING ...], the statement of the
    socket edit; [None] when the store refuses the text of [$1]. *)
Definition sql_update_content (now : Z) (c : jsstring) (mid sender : string)
    (d : store) : option (list message_row * store) :=
  match pg_text c with
  | None => None
  | Some stored =>
      Some (update_returning
              (fun r => bool_decide (row_id r = mid)
                        && bool_decide (sender_id r = sender))
              (set_edited now stored) d)
  end.

(** [UPDATE users SET is_online = false, last_seen = NOW() WHERE id = $1] *)
Definition sql_set_offline (now : Z) (uid : string) (d : store) : store :=
  with_users
    (alter (fun u => {| username := username u; is_online := false;
                        last_seen := Some now |}) uid (users d)) d.

(** ** Events, acknowledgements and responses *)

(** The message object built by the socket handlers and the routes. *)
Record message := {
  msg_id : string;
  senderId : string;
  receiverId : string;
  msg_content : jsstring;
  createdAt : Z;
  isRead : bool;
  readAt : option Z;
  senderUsername : string
}.

(** [nextCursor]: a timestamp, [null], or [undefined] when the optional
    chaining [rows[rows.length - 1]?.created_at] finds no row. *)
Inductive cursor :=
| C_at (t : Z)
| C_null
| C_undefined.

Inductive payload :=
| P_error (tempId : string) (error : string)
| P_sent_ack (tempId : string) (m : message)
| P_sent (tempId : string) (m : message)
| P_receive (m : message)
| P_read (messageIds : list string) (readAt : Z) (readBy : string)
| P_history (messages : list message) (hasMore : bool) (nextCursor : cursor)
| P_failure (error : string)
| P_updated (id : string) (c : jsstring) (isEdited : bool) (sender : string)
| P_user_online (uid uname : string)
| P_user_offline (uid uname : string) (lastSeen : Z)
| P_connected (uid uname : string) (connectedAt : Z)
| R_status (success : bool) (msg : string)
| R_read (success : bool) (readAt : Z)
| R_history (messages : list message) (hasMore : bool) (nextCursor : cursor)
    (partner : string * string)
| R_edited (id sender receiver : string) (c : jsstring) (createdAt : Z)
    (isRead isEdited : bool) (editedAt : option Z).

(** The statements as they appear in the trace, with their parameters;
    a text parameter is shown as sent, in its UTF-8 form. *)
Inductive stmt :=
| Q_select_user (uid : string)
| Q_insert_message (sender receiver : string) (c : jsstring)
| Q_mark_read (readAt : Z) (ids : list string) (reader : string)
| Q_select_history (me partner : string) (before : option Z) (limit : nat)
| Q_select_message (mid : string)
| Q_soft_delete (mid : string)
| Q_update_edit (c old : jsstring) (mid : string)
| Q_update_content (c : jsstring) (mid sender : string)
| Q_set_offline (uid : string).

Inductive effect :=
| Sql (q : stmt)
| Ack (p : payload)
| Emit (to : string) (event : string) (p : payload)
| Broadcast (from : string) (event : string) (p : payload)
| Respond (status : nat) (p : payload).

(** ** The world and the handler monad *)

(** The store, the registry [connectedUsers] of the server, the sockets
    that are connected, and what the environment decides: the clock, the
    next id the store generates, and for each coming store call whether
    it throws ([true]) or answers. *)
Record world := {
  w_db : store;
  connectedUsers : gmap string string;
  io_sockets : gmap string string;
  w_now : Z;
  w_uuid : string;
  w_faults : list bool
}.

Definition set_db (d : store) (w : world) : world :=
  {| w_db := d; connectedUsers := connectedUsers w;
     io_sockets := io_sockets w; w_now := w_now w; w_uuid := w_uuid w;
     w_faults := w_faults w |}.

Definition set_faults (fs : list bool) (w : world) : world :=
  {| w_db := w_db w; connectedUsers := connectedUsers w;
     io_sockets := io_sockets w; w_now := w_now w; w_uuid := w_uuid w;
     w_faults := fs |}.

Definition set_connectedUsers (c : gmap string string) (w : world) : world :=
  {| w_db := w_db w; connectedUsers := c;
     io_sockets := io_sockets w; w_now := w_now w; w_uuid := w_uuid w;
     w_faults := w_faults w |}.

Definition set_io_sockets (c : gmap string string) (w : world) : world :=
  {| w_db := w_db w; connectedUsers := connectedUsers w;
     io_sockets := c; w_now := w_now w; w_uuid := w_uuid w;
     w_faults := w_faults w |}.

Definition at_time (t : Z) (w : world) : world :=
  {| w_db := w_db w; connectedUsers := connectedUsers w;
     io_sockets := io_sockets w; w_now := t; w_uuid := w_uuid w;
     w_faults := w_faults w |}.

Inductive exn :=
| StoreError
| TypeError.

Inductive outcome (A : Type) :=
| Ok (a : A)
| Thrown (e : exn).
Arguments Ok {A} a.
Arguments Thrown {A} e.

Definition M (A : Type) : Type := world -> outcome A * world * list effect.

Definition ret {A} (a : A) : M A := fun w => (Ok a, w, []).

Definition bind {A B} (m : M A) (k : A -> M B) : M B := fun w =>
  match m w with
  | (Ok a, w1, t1) =>
      match k a w1 with
      | (o, w2, t2) => (o, w2, t1 ++ t2)
      end
  | (Thrown e, w1, t1) => (Thrown e, w1, t1)
  end.

Definition throw {A} (e : exn) : M A := fun w => (Thrown e, w, []).

(** [try { body } catch (error) { handler }] *)
Definition try_catch {A} (body : M A) (handler : exn -> M A) : M A := fun w =>
  match body w with
  | (Ok a, w1, t1) => (Ok a, w1, t1)
  | (Thrown e, w1, t1) =>
      match handler e w1 with
      | (o, w2, t2) => (o, w2, t1 ++ t2)
      end
  end.

Notation "'let*' x ':=' m 'in' k" := (bind m (fun x => k))
  (at level 10, x name, m at level 100, k at level 200).
Notation "m ';;;' k" := (bind m (fun _ => k))
  (at level 100, k at level 200, right associativity).

(** [await query(text, params)]: the next entry of [w_faults] says whether
    the store throws; a statement that completes is run on the store and
    recorded in the trace. *)
Definition query {A} (q : stmt) (run : store -> A * store) : M A := fun w =>
  match w_faults w with
  | true :: fs => (Thrown StoreError, set_faults fs w, [])
  | fs =>
      match run (w_db w) with
      | (a, d) => (Ok a, set_db d (set_faults (tail fs) w), [Sql q])
      end
  end.

(** [await query(text, params)] for a statement with a text parameter:
    besides the faults of the schedule, the store throws when it refuses
    the text, and then nothing is run. *)
Definition query_text {A} (q : stmt) (run : store -> option (A * store))
    : M A := fun w =>
  match w_faults w with
  | true :: fs => (Thrown StoreError, set_faults fs w, [])
  | fs =>
      match run (w_db w) with
      | Some (a, d) => (Ok a, set_db d (set_faults (tail fs) w), [Sql q])
      | None => (Thrown StoreError, set_faults (tail fs) w, [])
      end
  end.

Definition read_only {A} (f : store -> A) (d : store) : A * store := (f d, d).
Definition write_only (f : store -> store) (d : store) : unit * store :=
  (tt, f d).

Definition now : M Z := fun w => (Ok (w_now w), w, []).
Definition uuid : M string := fun w => (Ok (w_uuid w), w, []).

Definition emit (to event : string) (p : payload) : M unit := fun w =>
  (Ok tt, w, [Emit to event p]).

Definition broadcast (from event : string) (p : payload) : M unit := fun w =>
  (Ok tt, w, [Broadcast from event p]).

(** [if (callback) callback(p)] *)
Definition ack (callback : bool) (p : payload) : M unit := fun w =>
  (Ok tt, w, if callback then [Ack p] else []).

Definition respond (status : nat) (p : payload) : M unit := fun w =>
  (Ok tt, w, [Respond status p]).

Definition registry_get (k : string) : M (option string) := fun w =>
  (Ok (connectedUsers w !! k), w, []).

Definition registry_set (k v : string) : M unit := fun w =>
  (Ok tt, set_connectedUsers (<[k := v]> (connectedUsers w)) w, []).

Definition registry_delete (k : string) : M unit := fun w =>
  (Ok tt, set_connectedUsers (delete k (connectedUsers w)) w, []).

(** The state and the trace a handler leaves behind. *)
Definition final {A} (m : M A) (w : world) : world := (m w).1.2.
Definition trace {A} (m : M A) (w : world) : list effect := (m w).2.

(** ** Socket handlers ([src/socket/handlers/messageHandler.js]) *)

(** The authenticated socket: [socket.id], [socket.userId] and
    [socket.user.username], set by the authentication middleware. *)
Record socket := {
  socket_id : string;
  userId : string;
  user_username : string
}.

(** The message object built from the row returned by the [INSERT]. *)
Definition message_of_insert (r : message_row) (uname : string) : message :=
  {| msg_id := row_id r; senderId := sender_id r; receiverId := receiver_id r;
     msg_content := content r; createdAt := created_at r;
     isRead := is_read r; readAt := read_at r; senderUsername := uname |}.

Record send_data := {
  sm_receiverId : option string;
  sm_content : option jsstring;
  sm_tempId : string
}.

(** [const error = { tempId, error: msg }; if (callback) callback(error);
     socket.emit('message_error', error); return;] *)
Definition send_error (sk : socket) (callback : bool) (tempId msg : string)
    : M unit :=
  ack callback (P_error tempId msg);;;
  emit (socket_id sk) "message_error" (P_error tempId msg).

(** [socket.on('send_message', async (data, callback) => ...)] *)
Definition send_message (sk : socket) (data : send_data) (callback : bool)
    : M unit :=
  let tempId := sm_tempId data in
  match sm_receiverId data, sm_content data with
  | Some rid, Some c =>
      if bool_decide (rid = "") || bool_decide (c = []) then
        send_error sk callback tempId "Receiver ID and content are required"
      else if bool_decide (length (trim c) = 0) then
        send_error sk callback tempId "Message content cannot be empty"
      else if bool_decide (5000 < length c) then
        send_error sk callback tempId "Message too long (max 5000 characters)"
      else
        try_catch
          (let* receiverCheck :=
             query (Q_select_user rid) (read_only (sql_select_user rid)) in
           match receiverCheck with
           | [] => send_error sk callback tempId "Recipient not found"
           | _ :: _ =>
               let* id := uuid in
               let* t := now in
               let* row :=
                 query_text (Q_insert_message (userId sk) rid (utf8 (trim c)))
                   (sql_insert_message id t (userId sk) rid (trim c)) in
               let m := message_of_insert row (user_username sk) in
               ack callback (P_sent_ack tempId m);;;
               emit (socket_id sk) "message_sent" (P_sent tempId m);;;
               let* recipientSocketId := registry_get rid in
               match recipientSocketId with
               | Some s => emit s "receive_message" (P_receive m)
               | None => ret tt
               end
           end)
          (fun _ => send_error sk callback tempId "Failed to send message")
  | _, _ =>
      send_error sk callback tempId "Receiver ID and content are required"
  end.

Record mark_read_data := {
  mr_messageIds : option (list string);
  mr_senderId : option string
}.

(** [socket.on('mark_read', async (data) => ...)] *)
Definition mark_read (sk : socket) (data : mark_read_data) : M unit :=
  match mr_messageIds data with
  | None | Some [] => ret tt
  | Some ids =>
      try_catch
        (let* t := now in
         query (Q_mark_read t ids (userId sk))
           (write_only (sql_mark_read t ids (userId sk)));;;
         match mr_senderId data with
         | None => ret tt
         | Some sender =>
             if bool_decide (sender = "") then ret tt
             else
               let* senderSocketId := registry_get sender in
               match senderSocketId with
               | Some s => emit s "messages_read" (P_read ids t (userId sk))
               | None => ret tt
               end
         end)
        (fun _ => ret tt)
  end.

Record history_data := {
  gh_partnerId : option string;
  gh_limit : option nat;
  gh_before : option Z
}.

Definition message_of_history (h : history_row) : message :=
  message_of_insert (h_msg h) (sender_username h).

(** [hasMore ? result.rows[result.rows.length - 1]?.created_at : null] *)
Definition next_cursor (hasMore : bool) (rows : list history_row) : cursor :=
  if hasMore then
    match last rows with
    | Some h => C_at (created_at (h_msg h))
    | None => C_undefined
    end
  else C_null.

(** [socket.on('get_history', async (data, callback) => ...)] *)
Definition get_history (sk : socket) (data : history_data) (callback : bool)
    : M unit :=
  let limit := default 50 (gh_limit data) in
  match gh_partnerId data with
  | None => ack callback (P_failure "Partner ID is required")
  | Some partner =>
      if bool_decide (partner = "") then
        ack callback (P_failure "Partner ID is required")
      else
        try_catch
          (let* rows :=
             query (Q_select_history (userId sk) partner (gh_before data) limit)
               (read_only (sql_select_history (userId sk) partner
                             (gh_before data) limit)) in
           let messages := reverse (map message_of_history rows) in
           let hasMore := bool_decide (length rows = limit) in
           let nextCursor := next_cursor hasMore rows in
           ack callback (P_history messages hasMore nextCursor))
          (fun _ => ack callback (P_failure "Failed to fetch message history"))
  end.

Record edit_data := {
  em_messageId : string;
  em_content : jsstring;
  em_receiverId : string
}.

(** [socket.on('edit_message', async (data) => ...)] *)
Definition edit_message (sk : socket) (data : edit_data) : M unit :=
  let messageId := em_messageId data in
  let c := em_content data in
  try_catch
    (let* t := now in
     let* rows :=
       query_text (Q_update_content (utf8 c) messageId (userId sk))
         (sql_update_content t c messageId (userId sk)) in
     match rows with
     | [] => ret tt
     | _ :: _ =>
         let* recipientSocketId := registry_get (em_receiverId data) in
         match recipientSocketId with
         | Some s =>
             emit s "message_updated" (P_updated messageId c true (userId sk))
         | None => ret tt
         end;;;
         emit (socket_id sk) "message_updated"
           (P_updated messageId c true (userId sk))
     end)
    (fun _ => ret tt).

(** ** REST routes ([src/routes/messages.js]) *)

(** [res.status(code).json({ success: false, message: msg })] *)
Definition reject (code : nat) (msg : string) : M unit :=
  respond code (R_status false msg).

Record history_query := {
  q_limit : option nat;
  q_before : option Z
}.

(** [router.get('/:partnerId', ...)]; [user] is [req.user.id]. *)
Definition rest_get_history (user partnerId : string) (q : history_query)
    : M unit :=
  let limit := default 50 (q_limit q) in
  try_catch
    (let* partnerCheck :=
       query (Q_select_user partnerId) (read_only (sql_select_user partnerId)) in
     match partnerCheck with
     | [] => reject 404 "User not found"
     | (pid, pu) :: _ =>
         let* rows :=
           query (Q_select_history user partnerId (q_before q) limit)
             (read_only (sql_select_history user partnerId (q_before q) limit)) in
         let messages := reverse (map message_of_history rows) in
         let hasMore := bool_decide (length rows = limit) in
         let nextCursor := next_cursor hasMore rows in
         respond 200 (R_history messages hasMore nextCursor (pid, username pu))
     end)
    (fun _ => reject 500 "Failed to fetch messages").

(** [router.put('/read', ...)] *)
Definition rest_mark_read (user : string) (messageIds : option (list string))
    : M unit :=
  try_catch
    (match messageIds with
     | None | Some [] => reject 400 "Message IDs array is required"
     | Some ids =>
         let* t := now in
         query (Q_mark_read t ids user) (write_only (sql_mark_read t ids user));;;
         respond 200 (R_read true t)
     end)
    (fun _ => reject 500 "Failed to mark messages as read").

(** [router.delete('/message/:messageId', ...)] *)
Definition rest_delete (user messageId : string) : M unit :=
  try_catch
    (let* messageCheck :=
       query (Q_select_message messageId)
         (read_only (sql_select_message messageId)) in
     match messageCheck with
     | [] => reject 404 "Message not found"
     | message :: _ =>
         if bool_decide (sender_id message ≠ user) then
           reject 403 "You can only delete your own messages"
         else
           let* t := now in
           query (Q_soft_delete messageId)
             (write_only (sql_soft_delete t messageId));;;
           respond 200 (R_status true "Message deleted")
     end)
    (fun _ => reject 500 "Failed to delete message").

(** [!content || content.trim().length === 0] *)
Definition blank (c : option jsstring) : bool :=
  match c with
  | None => true
  | Some s => bool_decide (s = []) || bool_decide (length (trim s) = 0)
  end.

(** [router.put('/message/:messageId', ...)] *)
Definition rest_edit (user messageId : string) (body_content : option jsstring)
    : M unit :=
  try_catch
    (match body_content with
     | None => reject 400 "Message content is required"
     | Some c =>
         if blank (Some c) then reject 400 "Message content is required"
         else
           let* messageCheck :=
             query (Q_select_message messageId)
               (read_only (sql_select_message messageId)) in
           match messageCheck with
           | [] => reject 404 "Message not found"
           | message :: _ =>
               if bool_decide (sender_id message ≠ user) then
                 reject 403 "You can only edit your own messages"
               else if is_deleted message then
                 reject 400 "Cannot edit a deleted message"
               else
                 let* t := now in
                 let* rows :=
                   query_text
                     (Q_update_edit (utf8 (trim c)) (utf8 (content message))
                        messageId)
                     (sql_update_edit t (trim c) (content message) messageId) in
                 match rows with
                 | [] => throw TypeError
                 | r :: _ =>
                     respond 200
                       (R_edited (row_id r) (sender_id r) (receiver_id r)
                          (content r) (created_at r) (is_read r)
                          (is_edited r) (edited_at r))
                 end
           end
     end)
    (fun _ => reject 500 "Failed to edit message").

(** ** Connections ([src/socket/index.js]) *)

(** [io.on('connection', async (socket) => ...)], up to the confirmation
    sent to the client; the handlers registered in between emit nothing. *)
Definition on_connection (sk : socket) : M unit :=
  registry_set (userId sk) (socket_id sk);;;
  broadcast (socket_id sk) "user_online"
    (P_user_online (userId sk) (user_username sk));;;
  let* t := now in
  emit (socket_id sk) "connected"
    (P_connected (userId sk) (user_username sk) t).

(** [socket.on('disconnect', async (reason) => ...)]. Two clocks are
    read: the store's [NOW()] inside the [UPDATE], which is [w_now], and,
    after the awaited [UPDATE], the server's [new Date()] for the
    broadcast, which is [later]. *)
Definition on_disconnect (sk : socket) (later : Z) : M unit :=
  registry_delete (userId sk);;;
  try_catch
    (let* t := now in
     query (Q_set_offline (userId sk))
       (write_only (sql_set_offline t (userId sk))))
    (fun _ => ret tt);;;
  broadcast (socket_id sk) "user_offline"
    (P_user_offline (userId sk) (user_username sk) later).

(** The socket.io server keeps the set of connected sockets, here with
    the user each one authenticated as: a socket is in it when its
    [connection] event fires and out of it when [disconnect] fires. *)
Definition io_join (sk : socket) : M unit := fun w =>
  (Ok tt, set_io_sockets (<[socket_id sk := userId sk]> (io_sockets w)) w, []).

Definition io_leave (sk : socket) : M unit := fun w =>
  (Ok tt, set_io_sockets (delete (socket_id sk) (io_sockets w)) w, []).

Definition connect (sk : socket) : M unit := io_join sk;;; on_connection sk.
Definition disconnect (sk : socket) (later : Z) : M unit :=
  io_leave sk;;; on_disconnect sk later.

(** [e], issued while the sockets [live] are connected, sends event [ev]
    with payload [p] to socket [s]. [socket.emit] and [io.to(id).emit]
    address one socket; [socket.broadcast.emit] addresses every connected
    socket except the emitting one. *)
Definition sends (live : gmap string string) (e : effect)
    (s ev : string) (p : payload) : Prop :=
  match e with
  | Emit to ev' p' => to = s ∧ ev' = ev ∧ p' = p
  | Broadcast from ev' p' =>
      s ≠ from ∧ is_Some (live !! s) ∧ ev' = ev ∧ p' = p
  | _ => False
  end.

(** Every registered socket is connected and belongs to the user it is
    registered for. *)
Definition registry_live (w : world) : Prop :=
  ∀ u s, connectedUsers w !! u = Some s → io_sockets w !! s = Some u.

(** The server's life: sockets with fresh ids connect, connected sockets
    disconnect, the clock and the store's fault schedule move freely. *)
Inductive server_step : world -> world -> Prop :=
| step_connect w sk :
    io_sockets w !! socket_id sk = None →
    server_step w (final (connect sk) w)
| step_disconnect w sk later :
    io_sockets w !! socket_id sk = Some (userId sk) →
    server_step w (final (disconnect sk later) w)
| step_env w t fs :
    server_step w (at_time t (set_faults fs w)).

Definition initial (w : world) : Prop :=
  connectedUsers w = ∅ ∧ io_sockets w = ∅.


(** ** What the properties speak about *)

(** [e] hands the message object [m] to a client: the success
    acknowledgement, the [message_sent] confirmation, or the
    [receive_message] push. *)
Definition carries (e : effect) (m : message) : Prop :=
  match e with
  | Ack (P_sent_ack _ m') => m' = m
  | Emit _ _ (P_sent _ m') => m' = m
  | Emit _ _ (P_receive m') => m' = m
  | _ => False
  end.

(** A trace of store statements and error replies hands over no message. *)
Definition silent (tr : list effect) : Prop :=
  ∀ i e m, tr !! i = Some e → ¬ carries e m.

(** [e] answers a request: an event, an acknowledgement or a response. *)
Definition is_reply (e : effect) : bool :=
  match e with
  | Sql _ => false
  | _ => true
  end.

Definition oldest_first (a b : message) : Prop :=
  (createdAt a ≤ createdAt b)%Z.


(** ** A small deployment used in examples *)

Definition alice : socket :=
  {| socket_id := "s-alice"; userId := "u-alice"; user_username := "alice" |}.
Definition bob : socket :=
  {| socket_id := "s-bob"; userId := "u-bob"; user_username := "bob" |}.

Definition offline (name : string) : user_row :=
  {| username := name; is_online := false; last_seen := None |}.

Definition two_users : gmap string user_row :=
  <["u-alice" := offline "alice"]> (<["u-bob" := offline "bob"]> ∅).

(** Both users known, both connected, no message yet. *)
Definition quiet : world :=
  {| w_db := {| users := two_users; messages := [] |};
     connectedUsers := <["u-alice" := "s-alice"]> (<["u-bob" := "s-bob"]> ∅);
     io_sockets := <["s-alice" := "u-alice"]> (<["s-bob" := "u-bob"]> ∅);
     w_now := 1000; w_uuid := "m1"; w_faults := [] |}.

(** Alice's message "v1" to Bob, as inserted at time 10. *)
Definition m1 : message_row := new_row "m1" 10 "u-alice" "u-bob" (js "v1").

Definition with_rows (rows : list message_row) (w : world) : world :=
  set_db (with_messages rows (w_db w)) w.

(** One blank followed by 5000 letters: 5001 code units, 5000 once trimmed. *)
Definition padded : jsstring := 32%N :: replicate 5000 97%N.

(** The message [m1] after its sender deleted it at time 500. *)
Definition m1_deleted : message_row := set_deleted 500 m1.

Definition edit_to (c : jsstring) : edit_data :=
  {| em_messageId := "m1"; em_content := c; em_receiverId := "u-bob" |}.

(** ** Typing relay ([src/socket/handlers/typingHandler.js]) *)

(** [socket.on('typing', (data) => ...)]; the payload [{ userId, username }]
    has the shape of [P_user_online]. *)
Definition typing (sk : socket) (receiverId : option string) : M unit :=
  match receiverId with
  | None => ret tt
  | Some rid =>
      if bool_decide (rid = "") then ret tt
      else
        let* recipientSocketId := registry_get rid in
        match recipientSocketId with
        | Some s =>
            emit s "user_typing"
              (P_user_online (userId sk) (user_username sk))
        | None => ret tt
        end
  end.

(** [socket.on('stop_typing', (data) => ...)] *)
Definition stop_typing (sk : socket) (receiverId : option string) : M unit :=
  match receiverId with
  | None => ret tt
  | Some rid =>
      if bool_decide (rid = "") then ret tt
      else
        let* recipientSocketId := registry_get rid in
        match recipientSocketId with
        | Some s =>
            emit s "user_stop_typing"
              (P_user_online (userId sk) (user_username sk))
        | None => ret tt
        end
  end.

(** ** Presence queries ([src/socket/handlers/presenceHandler.js]) *)

(** The [user] object of a status reply. *)
Record user_info := {
  ui_id : string;
  ui_username : string;
  ui_isOnline : bool;
  ui_lastSeen : option Z
}.

(** [socket.on('get_user_status', async (data, callback) => ...)]. The
    statement selects the row of [users] with the given id. Errors go to
    the callback as [{ error }]; the success reply
    [{ success: true, user }] handed to the callback is the result of the
    computation, [None] when nothing of that kind was handed over. *)
Definition get_user_status (data_userId : option string) (callback : bool)
    : M (option user_info) :=
  match data_userId with
  | None => ack callback (P_failure "User ID is required");;; ret None
  | Some uid =>
      if bool_decide (uid = "") then
        ack callback (P_failure "User ID is required");;; ret None
      else
        try_catch
          (let* rows :=
             query (Q_select_user uid) (read_only (sql_select_user uid)) in
           match rows with
           | [] => ack callback (P_failure "User not found");;; ret None
           | (id, user) :: _ =>
               if callback then
                 ret (Some {| ui_id := id; ui_username := username user;
                              ui_isOnline := is_online user;
                              ui_lastSeen := last_seen user |})
               else ret None
           end)
          (fun _ =>
             ack callback (P_failure "Failed to fetch user status");;;
             ret None)
  end.

(** ** Registry helpers ([src/socket/index.js]) *)

(** [isUserOnline = (userId) => connectedUsers.has(userId)] *)
Definition isUserOnline (uid : string) (w : world) : bool :=
  bool_decide (is_Some (connectedUsers w !! uid)).

(** [getUserSocketId = (userId) => connectedUsers.get(userId)] *)
Definition getUserSocketId (uid : string) (w : world) : option string :=
  connectedUsers w !! uid.

(** ** Sending over REST ([src/routes/messages.js]) *)

(** [router.post('/:partnerId', ...)]; [user] and [uname] are
    [req.user.id] and [req.user.username]. Refusals are responses in the
    trace; the message object of the 201 response
    [{ success: true, message }] is the result of the computation. *)
Definition rest_send (user uname partnerId : string)
    (body_content : option jsstring) : M (option message) :=
  try_catch
    (match body_content with
     | None => reject 400 "Message content is required";;; ret None
     | Some c =>
         if blank (Some c) then
           reject 400 "Message content is required";;; ret None
         else if bool_decide (5000 < length c) then
           reject 400 "Message too long (max 5000 characters)";;; ret None
         else
           let* partnerCheck :=
             query (Q_select_user partnerId)
               (read_only (sql_select_user partnerId)) in
           match partnerCheck with
           | [] => reject 404 "Recipient not found";;; ret None
           | _ :: _ =>
               let* id := uuid in
               let* t := now in
               let* row :=
                 query_text (Q_insert_message user partnerId (utf8 (trim c)))
                   (sql_insert_message id t user partnerId (trim c)) in
               ret (Some (message_of_insert row uname))
           end
     end)
    (fun _ => reject 500 "Failed to send message";;; ret None).

(** The result a computation leaves, when it does not throw. *)
Definition result {A} (m : M A) (w : world) : option A :=
  match (m w).1.1 with
  | Ok a => Some a
  | Thrown _ => None
  end.

(** ** Requests *)

(** The requests a running server handles, each with the handler that
    serves it. *)
Inductive request :=
| Send_message (sk : socket) (data : send_data) (callback : bool)
| Mark_read (sk : socket) (data : mark_read_data)
| Get_history (sk : socket) (data : history_data) (callback : bool)
| Edit_message (sk : socket) (data : edit_data)
| Typing (sk : socket) (receiverId : option string)
| Stop_typing (sk : socket) (receiverId : option string)
| Get_user_status (data_userId : option string) (callback : bool)
| Rest_get_history (user partnerId : string) (q : history_query)
| Rest_send (user uname partnerId : string) (body_content : option jsstring)
| Rest_mark_read (user : string) (messageIds : option (list string))
| Rest_delete (user messageId : string)
| Rest_edit (user messageId : string) (body_content : option jsstring)
| Connect (sk : socket)
| Disconnect (sk : socket) (later : Z).

Definition handle (r : request) (w : world) : world :=
  match r with
  | Send_message sk data cb => final (send_message sk data cb) w
  | Mark_read sk data => final (mark_read sk data) w
  | Get_history sk data cb => final (get_history sk data cb) w
  | Edit_message sk data => final (edit_message sk data) w
  | Typing sk rid => final (typing sk rid) w
  | Stop_typing sk rid => final (stop_typing sk rid) w
  | Get_user_status uid cb => final (get_user_status uid cb) w
  | Rest_get_history u p q => final (rest_get_history u p q) w
  | Rest_send u n p c => final (rest_send u n p c) w
  | Rest_mark_read u ids => final (rest_mark_read u ids) w
  | Rest_delete u mid => final (rest_delete u mid) w
  | Rest_edit u mid c => final (rest_edit u mid c) w
  | Connect sk => final (connect sk) w
  | Disconnect sk later => final (disconnect sk later) w
  end.

Definition emitted (r : request) (w : world) : list effect :=
  match r with
  | Send_message sk data cb => trace (send_message sk data cb) w
  | Mark_read sk data => trace (mark_read sk data) w
  | Get_history sk data cb => trace (get_history sk data cb) w
  | Edit_message sk data => trace (edit_message sk data) w
  | Typing sk rid => trace (typing sk rid) w
  | Stop_typing sk rid => trace (stop_typing sk rid) w
  | Get_user_status uid cb => trace (get_user_status uid cb) w
  | Rest_get_history u p q => trace (rest_get_history u p q) w
  | Rest_send u n p c => trace (rest_send u n p c) w
  | Rest_mark_read u ids => trace (rest_mark_read u ids) w
  | Rest_delete u mid => trace (rest_delete u mid) w
  | Rest_edit u mid c => trace (rest_edit u mid c) w
  | Connect sk => trace (connect sk) w
  | Disconnect sk later => trace (disconnect sk later) w
  end.

(** The clock, the next generated id and the store's fault schedule are
    not under the server's control. *)
Definition set_env (t : Z) (id : string) (fs : list bool) (w : world) : world :=
  {| w_db := w_db w; connectedUsers := connectedUsers w;
     io_sockets := io_sockets w; w_now := t; w_uuid := id; w_faults := fs |}.

(** One step of a running server: a request is handled, or the
    environment moves. *)
Inductive serves : world -> world -> Prop :=
| serves_request r w : serves w (handle r w)
| serves_env t id fs w : serves w (set_env t id fs w).

(** The one write a request may make to the store. *)
Inductive store_write : store -> store -> Prop :=
| write_nothing d : store_write d d
| write_insert id t sender receiver c d r d' :
    sql_insert_message id t sender receiver c d = Some (r, d') →
    store_write d d'
| write_read t ids reader d :
    store_write d (sql_mark_read t ids reader d)
| write_delete t mid d :
    store_write d (sql_soft_delete t mid d)
| write_edit t c old mid d rows d' :
    sql_update_edit t c old mid d = Some (rows, d') →
    store_write d d'
| write_content t c mid sender d rows d' :
    sql_update_content t c mid sender d = Some (rows, d') →
    store_write d d'
| write_offline t uid d :
    store_write d (sql_set_offline t uid d).

(** The columns of a message that identify it and place it in a
    conversation. *)
Definition identity (r : message_row) : string * string * string * Z :=
  (row_id r, sender_id r, receiver_id r, created_at r).

(** Every flag of a row has its timestamp. *)
Definition stamped (r : message_row) : Prop :=
  (is_read r = true → is_Some (read_at r))
  ∧ (is_edited r = true → is_Some (edited_at r))
  ∧ (is_deleted r = true → is_Some (deleted_at r)).

(** The content of a row is text as the store holds it: no U+0000 and
    every surrogate paired, so that it reads back as it is. *)
Definition held (r : message_row) : Prop :=
  pg_text (content r) = Some (content r).

(** A socket event reaches a client. *)
Definition is_event (e : effect) : bool :=
  match e with
  | Emit _ _ _ | Broadcast _ _ _ => true
  | _ => false
  end.

(** How a stored row may differ from an earlier state of itself: same
    identity; a read row stays read at the same time; deleted and edited
    rows stay so; an original content, once recorded, stays. *)
Definition row_evolves (r r' : message_row) : Prop :=
  identity r' = identity r
  ∧ (is_read r = true → is_read r' = true ∧ read_at r' = read_at r)
  ∧ (is_deleted r = true → is_deleted r' = true)
  ∧ (is_edited r = true → is_edited r' = true)
  ∧ (is_Some (original_content r) →
       original_content r' = original_content r).

(** The table grows at its end only, and each row evolves. *)
Definition table_evolves (l l' : list message_row) : Prop :=
  ∀ i r, l !! i = Some r → ∃ r', l' !! i = Some r' ∧ row_evolves r r'.

(** Name and presence of the users, without the presence columns. *)
Definition directory (d : store) : gmap string string :=
  username <$> users d.

(** A request of the sample deployment: Alice greets Bob. *)
Definition hello : send_data :=
  {| sm_receiverId := Some "u-bob"; sm_content := Some (js " hi ");
     sm_tempId := "tmp-1" |}.

(** [e] is a [receive_message] event. *)
Definition is_push (e : effect) : bool :=
  match e with
  | Emit _ ev _ => bool_decide (ev = "receive_message")
  | _ => false
  end.

(** The page of messages an effect hands to a client, if it is a history
    reply, with its [hasMore] and [nextCursor]. *)
Definition page_in (e : effect) : option (list message * bool * cursor) :=
  match e with
  | Ack (P_history ms hm cur) => Some (ms, hm, cur)
  | Respond _ (R_history ms hm cur _) => Some (ms, hm, cur)
  | _ => None
  end.

(** The message object the history handlers build for a stored row whose
    sender has the username [uname]. *)
Definition shown (r : message_row) (uname : string) : message :=
  message_of_history {| h_msg := r; sender_username := uname |}.

(** Bob's answer to [m1], inserted at time 20. *)
Definition m2 : message_row := new_row "m2" 20 "u-bob" "u-alice" (js "re").

(** ** The conversation list ([GET /] of [src/routes/messages.js]) *)

(** [CASE WHEN sender_id = $1 THEN receiver_id ELSE sender_id END] *)
Definition partner_of (me : string) (r : message_row) : string :=
  if bool_decide (sender_id r = me) then receiver_id r else sender_id r.

(** The common table expression [conversation_partners]:
    [SELECT DISTINCT CASE ... END as partner_id FROM messages
     WHERE sender_id = $1 OR receiver_id = $1]. *)
Definition conversation_partners (me : string) (d : store) : gset string :=
  list_to_set
    (map (partner_of me)
       (filter (fun r => sender_id r = me ∨ receiver_id r = me)
          (messages d))).

(** The common table expression [unread_counts], read for one partner
    through [COALESCE(uc.unread_count, 0)]:
    [SELECT sender_id as partner_id, COUNT( * ) as unread_count
     FROM messages WHERE receiver_id = $1 AND is_read = false
     GROUP BY sender_id]. *)
Definition unread_count (me partner : string) (d : store) : nat :=
  length
    (filter (fun r => receiver_id r = me ∧ is_read r = false
                      ∧ sender_id r = partner)
       (messages d)).

(** The columns of a message that the conversation list reads. *)
Definition envelope (r : message_row) : string * string * bool :=
  (sender_id r, receiver_id r, is_read r).
(** * Properties *)

(** ** Running the monad *)

Lemma set_faults_same w : set_faults (w_faults w) w = w.
Proof. by destruct w. Qed.

Lemma set_db_same w : set_db (w_db w) w = w.
Proof. by destruct w. Qed.

Lemma with_messages_same d : with_messages (messages d) d = d.
Proof. by destruct d. Qed.

(** A store that does not throw runs the statement and records it. *)
Lemma query_ok {A} (q : stmt) (run : store -> A * store) w :
  w_faults w = [] →
  query q run w = (Ok (run (w_db w)).1, set_db (run (w_db w)).2 w, [Sql q]).
Proof.
  intros Hf. unfold query. rewrite Hf. destruct (run (w_db w)) as [a d].
  simpl. by rewrite <- Hf, set_faults_same.
Qed.

(** Whatever the fault schedule, a store call either throws without
    touching the store or completes, in which case it is in the trace. *)
Lemma query_cases {A} (q : stmt) (run : store -> A * store) w :
  (∃ fs, query q run w = (Thrown StoreError, set_faults fs w, []))
  ∨ (∃ fs, query q run w
           = (Ok (run (w_db w)).1, set_db (run (w_db w)).2 (set_faults fs w),
              [Sql q])).
Proof.
  unfold query. destruct (w_faults w) as [|[] fs]; eauto;
    destruct (run (w_db w)); eauto.
Qed.

(** *** Text in the store *)

Lemma pg_text_Some c stored :
  pg_text c = Some stored ↔ (0%N ∉ c) ∧ stored = utf8 c.
Proof.
  unfold pg_text. case_bool_decide; split; intros H'; simplify_eq;
    try done; by destruct H' as [? ->].
Qed.

Lemma pg_text_None c : pg_text c = None ↔ 0%N ∈ c.
Proof. unfold pg_text. by case_bool_decide. Qed.

(** Text without surrogates is held as it is. *)
Lemma utf8_plain c :
  Forall (fun u => isHighSurrogate u = false ∧ isLowSurrogate u = false) c →
  utf8 c = c.
Proof.
  induction 1 as [|u c [Hh Hl] _ IH]; [done|].
  simpl. rewrite Hh, Hl. by rewrite IH.
Qed.

(** A lone surrogate is not held: it comes back as U+FFFD. *)
Example utf8_lone_surrogate :
  utf8 [104; 55357; 105]%N = [104; 65533; 105]%N
  ∧ utf8 [55357; 56832]%N = [55357; 56832]%N.
Proof. split; reflexivity. Qed.

(** Text the store holds reads back as it is: writing it again changes
    nothing, and the store takes it. *)
Lemma utf8_idem c : utf8 (utf8 c) = utf8 c.
Proof.
  remember (length c) as n eqn:Hn. revert c Hn.
  induction n as [n IH] using lt_wf_ind. intros c Hn.
  destruct c as [|h c]; [done|].
  cbn [utf8]. destruct (isHighSurrogate h) eqn:Hh.
  - destruct c as [|l c]; [done|]. destruct (isLowSurrogate l) eqn:Hl.
    + cbn [utf8]. rewrite Hh, Hl. do 2 f_equal.
      apply (IH (length c)); simpl in *; lia.
    + change (utf8 (65533%N :: utf8 (l :: c)) = 65533%N :: utf8 (l :: c)).
      rewrite <- (IH (length (l :: c)) ltac:(simpl in *; lia) (l :: c) eq_refl)
        at 2.
      reflexivity.
  - destruct (isLowSurrogate h) eqn:Hl.
    + change (utf8 (65533%N :: utf8 c) = 65533%N :: utf8 c).
      rewrite <- (IH (length c) ltac:(simpl in *; lia) c eq_refl) at 2.
      reflexivity.
    + cbn [utf8]. rewrite Hh, Hl. f_equal.
      apply (IH (length c)); simpl in *; lia.
Qed.

Lemma utf8_no_nul c : 0%N ∉ c → 0%N ∉ utf8 c.
Proof.
  remember (length c) as n eqn:Hn. revert c Hn.
  induction n as [n IH] using lt_wf_ind. intros c Hn Hz.
  destruct c as [|h c]; [done|].
  rewrite not_elem_of_cons in Hz. destruct Hz as [Hh Hz].
  cbn [utf8]. destruct (isHighSurrogate h).
  - destruct c as [|l c].
    { apply not_elem_of_cons. split; [done|apply not_elem_of_nil]. }
    destruct (isLowSurrogate l).
    + rewrite not_elem_of_cons in Hz. destruct Hz as [Hl Hz].
      apply not_elem_of_cons. split; [done|].
      apply not_elem_of_cons. split; [done|].
      apply (IH (length c)); simpl in *; try lia; done.
    + apply not_elem_of_cons. split; [done|].
      apply (IH (length (l :: c))); simpl in *; try lia; done.
  - destruct (isLowSurrogate h).
    + apply not_elem_of_cons. split; [done|].
      apply (IH (length c)); simpl in *; try lia; done.
    + apply not_elem_of_cons. split; [done|].
      apply (IH (length c)); simpl in *; try lia; done.
Qed.

Lemma pg_text_held c stored :
  pg_text c = Some stored → pg_text stored = Some stored.
Proof.
  intros [Hz ->]%pg_text_Some. apply pg_text_Some. split.
  - by apply utf8_no_nul.
  - by rewrite utf8_idem.
Qed.

Lemma sql_insert_message_Some id t sender receiver c d row d' :
  sql_insert_message id t sender receiver c d = Some (row, d')
  ↔ (0%N ∉ c)
    ∧ row = new_row id t sender receiver (utf8 c)
    ∧ d' = with_messages (messages d ++ [row]) d.
Proof.
  unfold sql_insert_message. destruct (pg_text c) as [stored|] eqn:Ht.
  - apply pg_text_Some in Ht as [Hz ->]. split.
    + intros ?; by simplify_eq.
    + by intros (_ & -> & ->).
  - apply pg_text_None in Ht. split; [done|]. by intros [? _].
Qed.

Lemma sql_insert_message_None id t sender receiver c d :
  sql_insert_message id t sender receiver c d = None ↔ 0%N ∈ c.
Proof.
  unfold sql_insert_message. destruct (pg_text c) eqn:Ht.
  - apply pg_text_Some in Ht as [Hz _]. by split.
  - by apply pg_text_None in Ht.
Qed.

Lemma sql_update_content_Some t c mid sender d rows d' :
  sql_update_content t c mid sender d = Some (rows, d')
  ↔ (0%N ∉ c)
    ∧ (rows, d')
      = update_returning
          (fun r => bool_decide (row_id r = mid)
                    && bool_decide (sender_id r = sender))
          (set_edited t (utf8 c)) d.
Proof.
  unfold sql_update_content. destruct (pg_text c) as [stored|] eqn:Ht.
  - apply pg_text_Some in Ht as [Hz ->]. split.
    + intros ?; by simplify_eq.
    + intros [_ ->]. done.
  - apply pg_text_None in Ht. split; [done|]. by intros [? _].
Qed.

Lemma sql_update_edit_Some t c old mid d rows d' :
  sql_update_edit t c old mid d = Some (rows, d')
  ↔ (0%N ∉ c) ∧ (0%N ∉ old)
    ∧ (rows, d')
      = update_returning (fun r => bool_decide (row_id r = mid))
          (set_edited_tracked t (utf8 c) (utf8 old)) d.
Proof.
  unfold sql_update_edit.
  destruct (pg_text c) as [stored|] eqn:Ht;
    [destruct (pg_text old) as [stored_old|] eqn:Ho|].
  - apply pg_text_Some in Ht as [Hz ->].
    apply pg_text_Some in Ho as [Hz' ->]. split.
    + intros ?; by simplify_eq.
    + intros (_ & _ & ->). done.
  - apply pg_text_None in Ho. split; [done|]. by intros (_ & ? & _).
  - apply pg_text_None in Ht. split; [done|]. by intros [? _].
Qed.

(** A store that does not throw and takes the text runs the statement and
    records it. *)
Lemma query_text_ok {A} (q : stmt) (run : store -> option (A * store))
    w a d :
  w_faults w = [] →
  run (w_db w) = Some (a, d) →
  query_text q run w = (Ok a, set_db d w, [Sql q]).
Proof.
  intros Hf Hrun. unfold query_text. rewrite Hf, Hrun.
  simpl. by rewrite <- Hf, set_faults_same.
Qed.

(** A store that refuses the text throws, and nothing is run. *)
Lemma query_text_refused {A} (q : stmt) (run : store -> option (A * store))
    w :
  w_faults w = [] →
  run (w_db w) = None →
  query_text q run w = (Thrown StoreError, w, []).
Proof.
  intros Hf Hrun. unfold query_text. rewrite Hf, Hrun.
  simpl. by rewrite <- Hf, set_faults_same.
Qed.

Lemma query_text_cases {A} (q : stmt) (run : store -> option (A * store))
    w :
  (∃ fs, query_text q run w = (Thrown StoreError, set_faults fs w, []))
  ∨ (∃ fs a d,
       run (w_db w) = Some (a, d)
       ∧ query_text q run w = (Ok a, set_db d (set_faults fs w), [Sql q])).
Proof.
  unfold query_text.
  destruct (w_faults w) as [|[] fs]; eauto;
    destruct (run (w_db w)) as [[a d]|]; eauto 6.
Qed.

Lemma send_error_run sk callback tempId msg w :
  send_error sk callback tempId msg w
  = (Ok tt, w,
     (if callback then [Ack (P_error tempId msg)] else [])
       ++ [Emit (socket_id sk) "message_error" (P_error tempId msg)]).
Proof. reflexivity. Qed.

(** ** Sending *)

(** C8. A [send_message] whose content trims to nothing or is longer than
    5000 code units leaves the world as it was, runs no statement, and
    answers with an error carrying the caller's [tempId]: on the
    acknowledgement callback when there is one, and as a [message_error]
    event on the sender's socket. *)
Theorem C8_send_rejects_bad_content sk data c callback w :
  sm_content data = Some c →
  length (trim c) = 0 ∨ 5000 < length c →
  final (send_message sk data callback) w = w
  ∧ ∃ msg,
      trace (send_message sk data callback) w
      = (if callback then [Ack (P_error (sm_tempId data) msg)] else [])
          ++ [Emit (socket_id sk) "message_error"
                (P_error (sm_tempId data) msg)].
Proof.
  intros Hc Hbad. unfold final, trace, send_message. rewrite Hc.
  destruct (sm_receiverId data) as [rid|];
    [|rewrite send_error_run; eauto].
  destruct (bool_decide (rid = "") || bool_decide (c = []));
    [rewrite send_error_run; eauto|].
  case_bool_decide; [rewrite send_error_run; eauto|].
  case_bool_decide; [rewrite send_error_run; eauto|].
  lia.
Qed.

Lemma C8_send_rejects_bad_content_witness :
  let sk := {| socket_id := "s1"; userId := "u1"; user_username := "alice" |} in
  let data := {| sm_receiverId := Some "u2"; sm_content := Some (js "   ");
                 sm_tempId := "tmp-7" |} in
  let w := {| w_db := {| users := ∅; messages := [] |};
              connectedUsers := ∅; io_sockets := ∅; w_now := 0;
              w_uuid := "m1"; w_faults := [] |} in
  final (send_message sk data true) w = w
  ∧ ∃ msg,
      trace (send_message sk data true) w
      = [Ack (P_error "tmp-7" msg)]
          ++ [Emit "s1" "message_error" (P_error "tmp-7" msg)].
Proof.
  intros sk data w.
  apply (C8_send_rejects_bad_content sk data (js "   ") true w).
  - reflexivity.
  - left. reflexivity.
Defined.

(** What a successful [send_message] does when the store answers. *)
Lemma send_message_run sk rid ru c tempId callback w :
  w_faults w = [] →
  users (w_db w) !! rid = Some ru →
  rid ≠ "" →
  0 < length (trim c) →
  length c ≤ 5000 →
  0%N ∉ trim c →
  let data := {| sm_receiverId := Some rid; sm_content := Some c;
                 sm_tempId := tempId |} in
  let row := new_row (w_uuid w) (w_now w) (userId sk) rid (utf8 (trim c)) in
  let m := message_of_insert row (user_username sk) in
  send_message sk data callback w
  = (Ok tt,
     set_db (with_messages (messages (w_db w) ++ [row]) (w_db w)) w,
     [Sql (Q_select_user rid);
      Sql (Q_insert_message (userId sk) rid (utf8 (trim c)))]
       ++ (if callback then [Ack (P_sent_ack tempId m)] else [])
       ++ [Emit (socket_id sk) "message_sent" (P_sent tempId m)]
       ++ match connectedUsers w !! rid with
          | Some s => [Emit s "receive_message" (P_receive m)]
          | None => []
          end).
Proof.
  intros Hf Hu Hrid Hlo Hhi Hz data row m.
  assert (Hc : c ≠ []) by (intros ->; simpl in Hlo; lia).
  unfold send_message; simpl.
  rewrite !bool_decide_eq_false_2 by (done || lia). simpl.
  unfold try_catch, bind.
  rewrite query_ok by done. simpl.
  unfold sql_select_user. rewrite Hu. simpl.
  rewrite (query_text_ok _ _ _ row
             (with_messages (messages (w_db w) ++ [row]) (w_db w)))
    by (done || by apply sql_insert_message_Some).
  simpl. unfold registry_get. simpl.
  destruct (connectedUsers w !! rid), callback; reflexivity.
Qed.

(** C1, as the code has it. When the store answers both statements (it
    throws on neither, and the trimmed content holds no U+0000, which the
    store refuses), the receiver is a known user, and the content has at
    most 5000 code units and is not blank once trimmed, [send_message]
    appends exactly one row to [messages] and confirms to the sender with
    a message object under the caller's [tempId]: as [message_sent] on the
    sender's socket, and on the acknowledgement callback when there is
    one. The row and the message object hold the trimmed content as the
    store holds text, [utf8 (trim c)]: the trimmed content itself, except
    that an unpaired surrogate in it is held as U+FFFD. The length limit
    is on the content as received, not on the trimmed content. *)
Theorem C1_send_persists_and_confirms sk rid ru c tempId callback w :
  w_faults w = [] →
  store_wf (w_db w) →
  users (w_db w) !! rid = Some ru →
  0 < length (trim c) →
  length c ≤ 5000 →
  0%N ∉ trim c →
  let data := {| sm_receiverId := Some rid; sm_content := Some c;
                 sm_tempId := tempId |} in
  let w' := final (send_message sk data callback) w in
  let tr := trace (send_message sk data callback) w in
  ∃ row m,
    messages (w_db w') = messages (w_db w) ++ [row]
    ∧ users (w_db w') = users (w_db w)
    ∧ sender_id row = userId sk ∧ receiver_id row = rid
    ∧ content row = utf8 (trim c)
    ∧ msg_id m = row_id row ∧ msg_content m = utf8 (trim c)
    ∧ Emit (socket_id sk) "message_sent" (P_sent tempId m) ∈ tr
    ∧ (callback = true → Ack (P_sent_ack tempId m) ∈ tr).
Proof.
  intros Hf Hwf Hu Hlo Hhi Hz data w' tr.
  assert (Hrid : rid ≠ "").
  { intros ->. unfold store_wf in Hwf. congruence. }
  pose proof (send_message_run sk rid ru c tempId callback w
                Hf Hu Hrid Hlo Hhi Hz) as Hrun.
  simpl in Hrun. subst w' tr data. unfold final, trace. rewrite Hrun. simpl.
  exists (new_row (w_uuid w) (w_now w) (userId sk) rid (utf8 (trim c))).
  exists (message_of_insert
            (new_row (w_uuid w) (w_now w) (userId sk) rid (utf8 (trim c)))
            (user_username sk)).
  split_and!; try reflexivity.
  - destruct callback; set_solver.
  - intros ->. set_solver.
Qed.

Lemma C1_send_persists_and_confirms_witness :
  ∃ row m,
    messages (w_db (final (send_message alice
       {| sm_receiverId := Some "u-bob"; sm_content := Some (js " hi ");
          sm_tempId := "tmp-1" |} true) quiet))
    = messages (w_db quiet) ++ [row]
    ∧ users (w_db (final (send_message alice
       {| sm_receiverId := Some "u-bob"; sm_content := Some (js " hi ");
          sm_tempId := "tmp-1" |} true) quiet)) = users (w_db quiet)
    ∧ sender_id row = "u-alice" ∧ receiver_id row = "u-bob"
    ∧ content row = utf8 (trim (js " hi "))
    ∧ msg_id m = row_id row ∧ msg_content m = utf8 (trim (js " hi "))
    ∧ Emit "s-alice" "message_sent" (P_sent "tmp-1" m)
        ∈ trace (send_message alice
            {| sm_receiverId := Some "u-bob"; sm_content := Some (js " hi ");
               sm_tempId := "tmp-1" |} true) quiet
    ∧ (true = true →
       Ack (P_sent_ack "tmp-1" m)
        ∈ trace (send_message alice
            {| sm_receiverId := Some "u-bob"; sm_content := Some (js " hi ");
               sm_tempId := "tmp-1" |} true) quiet).
Proof.
  apply (C1_send_persists_and_confirms alice "u-bob" (offline "bob")
           (js " hi ") "tmp-1" true quiet).
  - reflexivity.
  - reflexivity.
  - reflexivity.
  - vm_compute. lia.
  - vm_compute. lia.
  - apply (bool_decide_unpack _). vm_compute. exact I.
Defined.

(** C1 as the specification words it fails: a content whose trimmed
    length is exactly 5000 but which arrives with one leading blank is
    refused as too long, and nothing is stored. *)
Lemma C1_trimmed_bound_counterexample :
  let data := {| sm_receiverId := Some "u-bob"; sm_content := Some padded;
                 sm_tempId := "tmp-1" |} in
  0 < length (trim padded) ≤ 5000
  ∧ is_Some (users (w_db quiet) !! "u-bob")
  ∧ messages (w_db (final (send_message alice data true) quiet)) = []
  ∧ trace (send_message alice data true) quiet
    = [Ack (P_error "tmp-1" "Message too long (max 5000 characters)");
       Emit "s-alice" "message_error"
         (P_error "tmp-1" "Message too long (max 5000 characters)")].
Proof.
  assert (Hlen : length (trim padded) = 5000) by (vm_compute; reflexivity).
  intros data. split_and!.
  - rewrite Hlen. lia.
  - rewrite Hlen. lia.
  - by eexists.
  - vm_compute. reflexivity.
  - vm_compute. reflexivity.
Qed.

(** The two kinds of content the store does not hold as received, on the
    sample world: an unpaired surrogate is stored and confirmed as
    U+FFFD, and a content with U+0000 makes the [INSERT] throw, so that
    nothing is stored and the sender is told the send failed. *)
Example send_lone_surrogate_is_replaced :
  let data := {| sm_receiverId := Some "u-bob";
                 sm_content := Some [104; 55357]%N; sm_tempId := "tmp-1" |} in
  let m := message_of_insert
             (new_row "m1" 1000 "u-alice" "u-bob" [104; 65533]%N) "alice" in
  content <$> messages (w_db (final (send_message alice data false) quiet))
  = [[104; 65533]%N]
  ∧ trace (send_message alice data false) quiet
    = [Sql (Q_select_user "u-bob");
       Sql (Q_insert_message "u-alice" "u-bob" [104; 65533]%N);
       Emit "s-alice" "message_sent" (P_sent "tmp-1" m);
       Emit "s-bob" "receive_message" (P_receive m)].
Proof. split; reflexivity. Qed.

Example send_nul_is_refused :
  let data := {| sm_receiverId := Some "u-bob";
                 sm_content := Some [104; 0]%N; sm_tempId := "tmp-1" |} in
  messages (w_db (final (send_message alice data false) quiet)) = []
  ∧ trace (send_message alice data false) quiet
    = [Sql (Q_select_user "u-bob");
       Emit "s-alice" "message_error"
         (P_error "tmp-1" "Failed to send message")].
Proof. split; reflexivity. Qed.

Ltac step_query :=
  match goal with
  | |- context [query ?q ?r ?w] =>
      destruct (query_cases q r w) as [[? ->]|[? ->]]; simpl
  | |- context [query_text ?q ?r ?w] =>
      let Hrun := fresh "Hrun" in
      destruct (query_text_cases q r w)
        as [[? ->]|(? & ? & ? & Hrun & ->)]; simpl
  end.

Lemma silent_Forall tr :
  Forall (fun e => ∀ m, ¬ carries e m) tr → silent tr.
Proof.
  intros Hall i e m Hi. by eapply Forall_lookup_1 in Hall.
Qed.

Ltac solve_silent :=
  left; apply silent_Forall;
  repeat match goal with |- context [if ?b then _ else _] => destruct b end;
  repeat constructor; intros ? [].

(** Every run of [send_message] either hands over no message at all, or
    has completed the [INSERT] as its second statement, holds the new row
    in the store, and hands over only the message object of that row. *)
Lemma send_message_shape sk data callback w :
  silent (trace (send_message sk data callback) w)
  ∨ ∃ row rest,
      trace (send_message sk data callback) w
      = Sql (Q_select_user (receiver_id row))
          :: Sql (Q_insert_message (sender_id row) (receiver_id row)
                    (content row))
          :: rest
      ∧ row ∈ messages (w_db (final (send_message sk data callback) w))
      ∧ ∀ e m, e ∈ rest → carries e m →
               m = message_of_insert row (user_username sk).
Proof.
  unfold trace, final, send_message.
  destruct (sm_receiverId data) as [rid|], (sm_content data) as [c|];
    try (simpl; solve_silent).
  destruct (bool_decide (rid = "") || bool_decide (c = []));
    [simpl; solve_silent|].
  destruct (bool_decide (length (trim c) = 0)); [simpl; solve_silent|].
  destruct (bool_decide (5000 < length c)); [simpl; solve_silent|].
  unfold try_catch, bind. step_query.
  { solve_silent. }
  destruct (sql_select_user rid (w_db w)); simpl.
  { solve_silent. }
  step_query.
  { solve_silent. }
  simpl in Hrun. apply sql_insert_message_Some in Hrun as (_ & -> & ->).
  right.
  exists (new_row (w_uuid w) (w_now w) (userId sk) rid (utf8 (trim c))).
  destruct callback, (connectedUsers w !! rid); simpl;
    (eexists; split; [reflexivity|]; split; [set_solver|]);
    intros e m He Hc; set_unfold; destruct_or?; subst; simpl in Hc;
    by subst.
Qed.

(** C3. In every run of [send_message], whatever the store's faults, an
    effect that hands the message to a client (the success
    acknowledgement, the [message_sent] confirmation, the
    [receive_message] push) comes strictly after the completed [INSERT] in
    the trace, the inserted row is in the store, and the message handed
    over is the one built from that row. *)
Theorem C3_persist_before_ack_and_push sk data callback w i e m :
  trace (send_message sk data callback) w !! i = Some e →
  carries e m →
  ∃ j row,
    j < i
    ∧ trace (send_message sk data callback) w !! j
      = Some (Sql (Q_insert_message (sender_id row) (receiver_id row)
                     (content row)))
    ∧ row ∈ messages (w_db (final (send_message sk data callback) w))
    ∧ m = message_of_insert row (user_username sk).
Proof.
  intros Hi Hc.
  destruct (send_message_shape sk data callback w)
    as [Hs|(row & rest & Htr & Hrow & Hrest)].
  { by destruct (Hs i e m Hi). }
  rewrite Htr in Hi |- *. exists 1, row.
  destruct i as [|[|i]]; simpl in Hi; simplify_eq; try done.
  split_and!; [lia|done|done|].
  apply (Hrest e m); [|done]. by eapply list_elem_of_lookup_2.
Qed.

Lemma C3_persist_before_ack_and_push_witness :
  let data := {| sm_receiverId := Some "u-bob"; sm_content := Some (js "hi");
                 sm_tempId := "tmp-1" |} in
  let m := message_of_insert (new_row "m1" 1000 "u-alice" "u-bob" (js "hi"))
             "alice" in
  ∃ j row,
    j < 4
    ∧ trace (send_message alice data true) quiet !! j
      = Some (Sql (Q_insert_message (sender_id row) (receiver_id row)
                     (content row)))
    ∧ row ∈ messages (w_db (final (send_message alice data true) quiet))
    ∧ m = message_of_insert row "alice".
Proof.
  intros data m.
  apply (C3_persist_before_ack_and_push alice data true quiet 4
           (Emit "s-bob" "receive_message" (P_receive m)) m).
  - reflexivity.
  - reflexivity.
Defined.

(** ** Read receipts *)

Lemma read_target_spec ids reader r :
  read_target ids reader r = true
  ↔ row_id r ∈ ids ∧ receiver_id r = reader ∧ is_read r = false.
Proof.
  unfold read_target. rewrite !andb_true_iff, !bool_decide_eq_true.
  rewrite negb_true_iff. tauto.
Qed.


Lemma sql_mark_read_lookup t ids reader d i r :
  messages d !! i = Some r →
  messages (sql_mark_read t ids reader d) !! i
  = Some (if read_target ids reader r then set_read t r else r).
Proof. intros Hi. simpl. by rewrite list_lookup_fmap, Hi. Qed.


Lemma mark_read_final sk ids sender w :
  ids ≠ [] → w_faults w = [] →
  final (mark_read sk {| mr_messageIds := Some ids; mr_senderId := sender |}) w
  = set_db (sql_mark_read (w_now w) ids (userId sk) (w_db w)) w.
Proof.
  intros Hids Hf. unfold final, mark_read. simpl.
  destruct ids as [|id ids]; [done|].
  unfold try_catch, bind. simpl. rewrite query_ok by done. simpl.
  destruct sender as [s|]; [|done]. case_bool_decide; [done|].
  unfold registry_get. simpl. by destruct (connectedUsers w !! s).
Qed.













(** ** History pages *)

Global Instance newer_first_total : Total newer_first.
Proof. intros a b. unfold newer_first. lia. Qed.

Global Instance oldest_first_trans : Transitive oldest_first.
Proof. intros a b c. unfold oldest_first. lia. Qed.

Lemma Sorted_take {A} (R : relation A) n l :
  Sorted R l → Sorted R (take n l).
Proof.
  intros Hs. revert n. induction Hs as [|x l Hs IH Hhd]; intros [|n]; simpl;
    try constructor; auto.
  destruct Hhd, n; simpl; by constructor.
Qed.

(** The query returns at most [limit] rows, latest first. *)
Lemma sql_select_history_sorted me partner before limit d :
  Sorted newer_first (sql_select_history me partner before limit d).
Proof. apply Sorted_take, Sorted_merge_sort, _. Qed.


(** Every returned row is a message of the conversation, older than the
    cursor when one is given. *)
Lemma sql_select_history_sound me partner before limit d h :
  h ∈ sql_select_history me partner before limit d →
  h_msg h ∈ messages d
  ∧ in_conversation me partner (h_msg h) = true
  ∧ before_cursor before (h_msg h) = true.
Proof.
  unfold sql_select_history. intros Hh.
  apply (subseteq_take limit) in Hh.
  rewrite merge_sort_Permutation in Hh.
  apply list_elem_of_omap in Hh as (r & Hr & Hj).
  apply list_elem_of_filter in Hr as [Hp Hr].
  unfold join_sender in Hj. destruct (users d !! sender_id r); simplify_eq/=.
  apply andb_prop_elim in Hp as [H1 H2].
  by rewrite (Is_true_true_1 _ H1), (Is_true_true_1 _ H2).
Qed.





(** ** Connections *)

Lemma connect_run sk w :
  connect sk w
  = (Ok tt,
     set_connectedUsers (<[userId sk := socket_id sk]> (connectedUsers w))
       (set_io_sockets (<[socket_id sk := userId sk]> (io_sockets w)) w),
     [Broadcast (socket_id sk) "user_online"
        (P_user_online (userId sk) (user_username sk));
      Emit (socket_id sk) "connected"
        (P_connected (userId sk) (user_username sk) (w_now w))]).
Proof. reflexivity. Qed.

Lemma disconnect_registry sk later w :
  connectedUsers (final (disconnect sk later) w)
  = delete (userId sk) (connectedUsers w)
  ∧ io_sockets (final (disconnect sk later) w)
    = delete (socket_id sk) (io_sockets w).
Proof.
  unfold final, disconnect, on_disconnect, bind, try_catch. simpl.
  step_query; done.
Qed.

(** The registry only ever names connected sockets, under their own
    user: connecting and disconnecting keep it so. *)
Lemma registry_live_step w w' :
  server_step w w' → registry_live w → registry_live w'.
Proof.
  intros Hstep Hlive. destruct Hstep as [w sk Hfresh|w sk later Hown|w t fs].
  - unfold final. rewrite connect_run. simpl. intros u s Hu. simpl in *.
    destruct (decide (u = userId sk)) as [->|Hne].
    + rewrite lookup_insert_eq in Hu. simplify_eq.
      by rewrite lookup_insert_eq.
    + rewrite lookup_insert_ne in Hu by done.
      pose proof (Hlive u s Hu) as Hs.
      rewrite lookup_insert_ne; [done|]. intros <-. congruence.
  - destruct (disconnect_registry sk later w) as [Hc Hi].
    intros u s Hu. rewrite Hc in Hu. rewrite Hi.
    apply lookup_delete_Some in Hu as [Hne Hu].
    pose proof (Hlive u s Hu) as Hs.
    rewrite lookup_delete_ne; [done|]. intros <-. congruence.
  - exact Hlive.
Qed.

Lemma registry_live_reachable w w' :
  initial w → rtc server_step w w' → registry_live w'.
Proof.
  intros [Hc Hi] Hsteps.
  assert (Hinit : registry_live w).
  { intros u s Hu. rewrite Hc in Hu. by rewrite lookup_empty in Hu. }
  clear Hc Hi. induction Hsteps as [w|w w1 w2 Hstep _ IH]; [done|].
  eauto using registry_live_step.
Qed.

(** C9. When a socket of user X connects to a server whose registry names
    only connected sockets, every socket registered at that moment or
    after X's registration, X's own apart, is addressed by the
    [user_online] broadcast for X, which the trace holds strictly before
    the [connected] confirmation emitted to X; nothing is confirmed to X
    before the broadcast. *)
Theorem C9_online_before_connected sk w u s :
  registry_live w →
  connectedUsers w !! u = Some s
    ∨ connectedUsers (final (connect sk) w) !! u = Some s →
  s ≠ socket_id sk →
  let live := io_sockets (final (connect sk) w) in
  let tr := trace (connect sk) w in
  ∃ i j e t,
    i < j
    ∧ tr !! i = Some e
    ∧ sends live e s "user_online"
        (P_user_online (userId sk) (user_username sk))
    ∧ tr !! j = Some (Emit (socket_id sk) "connected"
                        (P_connected (userId sk) (user_username sk) t))
    ∧ ∀ k ev p, k < j → tr !! k ≠ Some (Emit (socket_id sk) ev p).
Proof.
  intros Hlive Hreg Hne live tr. subst live tr. unfold final, trace.
  rewrite connect_run. simpl.
  assert (Hs : io_sockets w !! s = Some u).
  { destruct Hreg as [Hu|Hu]; [by apply Hlive|]. simpl in Hu.
    destruct (decide (u = userId sk)) as [->|Hux].
    - rewrite lookup_insert_eq in Hu. congruence.
    - rewrite lookup_insert_ne in Hu by done. by apply Hlive. }
  exists 0, 1, (Broadcast (socket_id sk) "user_online"
                  (P_user_online (userId sk) (user_username sk))), (w_now w).
  split_and!; try done.
  - lia.
  - simpl. split_and!; try done.
    rewrite lookup_insert_ne by done. by eexists.
  - intros [|k] ev p Hk; [done|lia].
Qed.

Lemma C9_online_before_connected_witness :
  let carol := {| socket_id := "s-carol"; userId := "u-carol";
                  user_username := "carol" |} in
  let live := io_sockets (final (connect carol) quiet) in
  let tr := trace (connect carol) quiet in
  ∃ i j e t,
    i < j
    ∧ tr !! i = Some e
    ∧ sends live e "s-bob" "user_online" (P_user_online "u-carol" "carol")
    ∧ tr !! j = Some (Emit "s-carol" "connected"
                        (P_connected "u-carol" "carol" t))
    ∧ ∀ k ev p, k < j → tr !! k ≠ Some (Emit "s-carol" ev p).
Proof.
  intros carol.
  apply (C9_online_before_connected carol quiet "u-bob" "s-bob").
  - intros u s Hu. unfold quiet in *. simpl in *.
    apply lookup_insert_Some in Hu as [[<- <-]|[Hn Hu]]; [reflexivity|].
    apply lookup_insert_Some in Hu as [[<- <-]|[Hn' Hu]]; [reflexivity|].
    by rewrite lookup_empty in Hu.
  - left. reflexivity.
  - discriminate.
Defined.

(** ** Edits and deletes *)

(** [COALESCE] keeps the first value it was given. *)
Lemma coalesce_keeps_first o x y : coalesce (coalesce o x) y = coalesce o x.
Proof. by destruct o. Qed.

(** The REST statement records the pre-edit content once: a second tracked
    edit leaves [original_content] as the first one set it. *)
Lemma set_edited_tracked_twice t1 t2 c2 c3 old1 old2 r :
  original_content
    (set_edited_tracked t2 c3 old2 (set_edited_tracked t1 c2 old1 r))
  = coalesce (original_content r) old1.
Proof. simpl. apply coalesce_keeps_first. Qed.

(** The REST route on the sample message: edited to "v2" and then to
    "v3", the row keeps "v1" as its original content. *)
Example rest_edit_twice_keeps_original :
  let w := with_rows [m1] quiet in
  let w2 := final (rest_edit "u-alice" "m1" (Some (js "v2"))) w in
  let w3 := final (rest_edit "u-alice" "m1" (Some (js "v3"))) w2 in
  (fun r => (content r, original_content r)) <$> messages (w_db w3)
  = [(js "v3", Some (js "v1"))].
Proof. reflexivity. Qed.

(** C2 fails on the socket path. [edit_message] never writes
    [original_content]: after the sender edits the sample message to "v2"
    and then to "v3" over the socket, the stored original is still
    absent; and when the second edit goes through REST instead, the
    stored original is "v2", the content of the first edit, not "v1". *)
Theorem C2_socket_edit_drops_original :
  let w := with_rows [m1] quiet in
  let w2 := final (edit_message alice (edit_to (js "v2"))) w in
  let w3 := final (edit_message alice (edit_to (js "v3"))) w2 in
  let w3' := final (rest_edit "u-alice" "m1" (Some (js "v3"))) w2 in
  (fun r => (content r, original_content r)) <$> messages (w_db w)
  = [(js "v1", None)]
  ∧ (fun r => (content r, original_content r)) <$> messages (w_db w3)
    = [(js "v3", None)]
  ∧ (fun r => (content r, original_content r)) <$> messages (w_db w3')
    = [(js "v3", Some (js "v2"))].
Proof. split_and!; reflexivity. Qed.

(** The REST route refuses to edit a deleted message and writes nothing. *)
Lemma rest_edit_deleted_rejected user mid c r rest w :
  w_faults w = [] →
  blank (Some c) = false →
  sql_select_message mid (w_db w) = r :: rest →
  sender_id r = user →
  is_deleted r = true →
  final (rest_edit user mid (Some c)) w = w
  ∧ trace (rest_edit user mid (Some c)) w
    = [Sql (Q_select_message mid);
       Respond 400 (R_status false "Cannot edit a deleted message")].
Proof.
  intros Hf Hb Hsel Hs Hd. unfold final, trace, rest_edit. rewrite Hb.
  unfold try_catch, bind. rewrite query_ok by done. simpl. rewrite Hsel.
  rewrite bool_decide_eq_false_2 by (intros ?; done). rewrite Hd. simpl.
  by rewrite set_db_same.
Qed.

(** C5 fails on the socket path. [edit_message] does not look at
    [is_deleted]: the sender's edit of the deleted sample message
    replaces the tombstone by the new content, marks the row edited, and
    is announced to both sides as [message_updated]. *)
Theorem C5_socket_edit_rewrites_deleted :
  let w := with_rows [m1_deleted] quiet in
  let w' := final (edit_message alice (edit_to (js "v2"))) w in
  (fun r => (is_deleted r, content r, is_edited r)) <$> messages (w_db w)
  = [(true, tombstone, false)]
  ∧ (fun r => (is_deleted r, content r, is_edited r)) <$> messages (w_db w')
    = [(true, js "v2", true)]
  ∧ trace (edit_message alice (edit_to (js "v2"))) w
    = [Sql (Q_update_content (js "v2") "m1" "u-alice");
       Emit "s-bob" "message_updated" (P_updated "m1" (js "v2") true "u-alice");
       Emit "s-alice" "message_updated"
         (P_updated "m1" (js "v2") true "u-alice")].
Proof. split_and!; reflexivity. Qed.

(** The first row a lookup by id returns is a row of the table with that
    id, whenever the table has one. *)
Lemma sql_select_message_head mid d r0 :
  r0 ∈ messages d → row_id r0 = mid →
  ∃ r rest, sql_select_message mid d = r :: rest
            ∧ r ∈ messages d ∧ row_id r = mid.
Proof.
  intros Hin Hid. unfold sql_select_message.
  assert (Hf : r0 ∈ filter (fun r => row_id r = mid) (messages d))
    by (apply list_elem_of_filter; done).
  destruct (filter (fun r => row_id r = mid) (messages d)) as [|r rest] eqn:He.
  { by apply not_elem_of_nil in Hf. }
  exists r, rest. split; [done|].
  assert (Hr : r ∈ filter (fun r => row_id r = mid) (messages d))
    by (rewrite He; left).
  by apply list_elem_of_filter in Hr as [? ?].
Qed.

(** An update whose [WHERE] clause matches no row writes nothing. *)
Lemma update_returning_no_hit hit f d :
  (∀ r, r ∈ messages d → hit r = false) →
  update_returning hit f d = ([], d).
Proof.
  intros Hno. unfold update_returning. f_equal.
  - induction (messages d) as [|r l IH]; [done|].
    rewrite filter_cons. rewrite Hno by left. simpl.
    apply IH. intros r' Hr'. apply Hno. by right.
  - assert (Hm : map (fun r => if hit r then f r else r) (messages d)
                 = messages d).
    { rewrite <- (list_fmap_id (messages d)) at 2.
      apply list_fmap_ext. intros i r Hi. simpl.
      rewrite Hno; [done|]. by eapply list_elem_of_lookup_2. }
    rewrite Hm. apply with_messages_same.
Qed.

(** For a stored message that the caller did not send and a store that
    answers, no path writes anything: the REST delete answers 403, the
    REST edit with a non-blank content answers 403, and the socket
    [edit_message] runs at most an update that matches no row and reports
    nothing to anyone. *)
Lemma non_sender_cannot_mutate sk r0 mid c receiver w :
  w_faults w = [] →
  r0 ∈ messages (w_db w) →
  row_id r0 = mid →
  (∀ r, r ∈ messages (w_db w) → row_id r = mid → sender_id r ≠ userId sk) →
  blank (Some c) = false →
  let data := {| em_messageId := mid; em_content := c;
                 em_receiverId := receiver |} in
  (final (rest_delete (userId sk) mid) w = w
   ∧ trace (rest_delete (userId sk) mid) w
     = [Sql (Q_select_message mid);
        Respond 403 (R_status false "You can only delete your own messages")])
  ∧ (final (rest_edit (userId sk) mid (Some c)) w = w
     ∧ trace (rest_edit (userId sk) mid (Some c)) w
       = [Sql (Q_select_message mid);
          Respond 403 (R_status false "You can only edit your own messages")])
  ∧ (final (edit_message sk data) w = w
     ∧ trace (edit_message sk data) w
       = match pg_text c with
         | Some stored => [Sql (Q_update_content stored mid (userId sk))]
         | None => []
         end).
Proof.
  intros Hf Hin Hid Hns Hb data.
  destruct (sql_select_message_head mid (w_db w) r0 Hin Hid)
    as (r & rest & Hsel & Hr & Hrid).
  pose proof (Hns r Hr Hrid) as Hne.
  assert (Hno : ∀ t stored,
    update_returning
      (fun r => bool_decide (row_id r = mid)
                && bool_decide (sender_id r = userId sk))
      (set_edited t stored) (w_db w) = ([], w_db w)).
  { intros t stored. apply update_returning_no_hit.
    intros r' Hr'. apply andb_false_iff.
    destruct (decide (row_id r' = mid)) as [Heq|Hneq].
    - right. apply bool_decide_eq_false_2. by apply Hns.
    - left. by apply bool_decide_eq_false_2. }
  split_and!.
  - unfold final, rest_delete, try_catch, bind.
    rewrite query_ok by done. simpl. rewrite Hsel.
    rewrite bool_decide_eq_true_2 by done. simpl. apply set_db_same.
  - unfold trace, rest_delete, try_catch, bind.
    rewrite query_ok by done. simpl. rewrite Hsel.
    by rewrite bool_decide_eq_true_2.
  - unfold final, rest_edit. rewrite Hb. unfold try_catch, bind.
    rewrite query_ok by done. simpl. rewrite Hsel.
    rewrite bool_decide_eq_true_2 by done. simpl. apply set_db_same.
  - unfold trace, rest_edit. rewrite Hb. unfold try_catch, bind.
    rewrite query_ok by done. simpl. rewrite Hsel.
    by rewrite bool_decide_eq_true_2.
  - unfold final, edit_message, try_catch, bind. simpl.
    destruct (pg_text c) as [stored|] eqn:Ht.
    + rewrite (query_text_ok _ _ _ [] (w_db w)); [simpl; apply set_db_same|done|].
      unfold sql_update_content. by rewrite Ht, Hno.
    + rewrite query_text_refused; [done|done|].
      unfold sql_update_content. by rewrite Ht.
  - unfold trace, edit_message, try_catch, bind. simpl.
    destruct (pg_text c) as [stored|] eqn:Ht.
    + rewrite (query_text_ok _ _ _ [] (w_db w)); [|done|].
      * simpl. by apply pg_text_Some in Ht as [_ ->].
      * unfold sql_update_content. by rewrite Ht, Hno.
    + rewrite query_text_refused; [done|done|].
      unfold sql_update_content. by rewrite Ht.
Qed.

(** C6 fails on the socket path. Bob, who did not send the sample message,
    asks to edit it. Over REST the edit and the delete are refused with
    403. Over the socket, [edit_message] runs the shortcut [UPDATE], which
    matches no row, and then stops: the row is kept, but no error of any
    kind reaches the caller, on the socket or anywhere else. *)
Theorem C6_socket_edit_by_non_sender_is_silent :
  let w := with_rows [m1] quiet in
  let data := edit_to (js "mine now") in
  sender_id m1 ≠ userId bob
  ∧ final (edit_message bob data) w = w
  ∧ trace (edit_message bob data) w
    = [Sql (Q_update_content (js "mine now") "m1" "u-bob")]
  ∧ trace (rest_edit "u-bob" "m1" (Some (js "mine now"))) w
    = [Sql (Q_select_message "m1");
       Respond 403 (R_status false "You can only edit your own messages")]
  ∧ trace (rest_delete "u-bob" "m1") w
    = [Sql (Q_select_message "m1");
       Respond 403 (R_status false "You can only delete your own messages")].
Proof. split_and!; [discriminate|reflexivity..]. Qed.

(** * Further properties of the handlers *)

(** ** Typing relay *)

(** X1. Typing signals are stateless relays: whatever the input, [typing] and
    [stop_typing] leave the world (store, registry) as it was and run no
    statement; they emit at most one event, and only to the socket
    registered for the named receiver, so a signal to a receiver who is
    not connected, or a signal naming no receiver, is dropped silently. *)
Theorem typing_is_a_stateless_relay sk receiverId w :
  (final (typing sk receiverId) w = w
   ∧ final (stop_typing sk receiverId) w = w)
  ∧ (length (trace (typing sk receiverId) w) ≤ 1
     ∧ length (trace (stop_typing sk receiverId) w) ≤ 1)
  ∧ (∀ e, e ∈ trace (typing sk receiverId) w →
       ∃ rid s, receiverId = Some rid ∧ connectedUsers w !! rid = Some s
                ∧ e = Emit s "user_typing"
                        (P_user_online (userId sk) (user_username sk)))
  ∧ (∀ e, e ∈ trace (stop_typing sk receiverId) w →
       ∃ rid s, receiverId = Some rid ∧ connectedUsers w !! rid = Some s
                ∧ e = Emit s "user_stop_typing"
                        (P_user_online (userId sk) (user_username sk))).
Proof.
  unfold final, trace, typing, stop_typing.
  destruct receiverId as [rid|]; simpl.
  2: { split_and!; try done; try lia; intros e He; by apply not_elem_of_nil in He. }
  case_bool_decide; simpl.
  { split_and!; try done; try lia; intros e He; by apply not_elem_of_nil in He. }
  unfold bind, registry_get; simpl.
  destruct (connectedUsers w !! rid) as [s|] eqn:Hs; simpl.
  - split_and!; try done; try lia; intros e He;
      apply list_elem_of_singleton in He; subst e; by exists rid, s.
  - split_and!; try done; try lia; intros e He; by apply not_elem_of_nil in He.
Qed.

(** ** What a request may do to the store *)

Ltac crunch :=
  repeat first
    [ step_query
    | match goal with
      | |- context [match sql_select_user ?a ?b with _ => _ end] =>
          destruct (sql_select_user a b) as [|[??]?] eqn:?; simpl
      | |- context [match sql_select_message ?a ?b with _ => _ end] =>
          destruct (sql_select_message a b) eqn:?; simpl
      | |- context [match connectedUsers ?w !! ?k with _ => _ end] =>
          destruct (connectedUsers w !! k) eqn:?; simpl
      | |- context [match map ?f ?l with _ => _ end] =>
          destruct (map f l) eqn:?; simpl
      | |- context [match ?l with [] => _ | _ :: _ => _ end] =>
          is_var l; destruct l; simpl
      | |- context [if ?b then _ else _] => destruct b eqn:?; simpl
      end ].

Ltac run_handler :=
  unfold final, trace, try_catch, bind; simpl; unfold try_catch, bind; crunch.

(** Whatever the request, its input and the store's faults, the store
    after it is the store before it or the result of one of the seven
    statements that write. *)
Ltac solve_write :=
  first
    [ apply write_nothing
    | apply write_read
    | apply write_delete
    | apply write_offline
    | eapply write_insert; eassumption
    | eapply write_edit; eassumption
    | eapply write_content; eassumption ].

Lemma handle_writes r w : store_write (w_db w) (w_db (handle r w)).
Proof.
  destruct r as [sk data cb|sk data|sk data cb|sk data|sk rid|sk rid|uid cb|u p q|u n p c|u ids|u mid|u mid c|sk|sk later];
    simpl.
  - unfold send_message.
    destruct (sm_receiverId data), (sm_content data); run_handler;
      solve_write.
  - unfold mark_read.
    destruct (mr_messageIds data) as [[|??]|], (mr_senderId data);
      run_handler; solve_write.
  - unfold get_history. destruct (gh_partnerId data); run_handler;
      solve_write.
  - unfold edit_message. run_handler; solve_write.
  - unfold typing. destruct rid; run_handler; solve_write.
  - unfold stop_typing. destruct rid; run_handler; solve_write.
  - unfold get_user_status. destruct uid; run_handler; solve_write.
  - unfold rest_get_history. run_handler; solve_write.
  - unfold rest_send. destruct c; run_handler; solve_write.
  - unfold rest_mark_read. destruct ids as [[|??]|]; run_handler;
      solve_write.
  - unfold rest_delete. run_handler; solve_write.
  - unfold rest_edit. destruct c; run_handler; solve_write.
  - solve_write.
  - unfold disconnect, on_disconnect. run_handler; solve_write.
Qed.

(** The cases of a write, each with the table it leaves. *)
Ltac invert_write Hw :=
  destruct Hw as [d0|id t sender receiver c d0 row d1 Hrun|t ids reader d0
                 |t mid d0|t c old mid d0 rows d1 Hrun
                 |t c mid sender d0 rows d1 Hrun|t uid d0];
  [ | apply sql_insert_message_Some in Hrun as (_ & -> & ->)
    | |
    | apply sql_update_edit_Some in Hrun as (_ & _ & Hrun);
      unfold update_returning in Hrun; simplify_eq
    | apply sql_update_content_Some in Hrun as (_ & Hrun);
      unfold update_returning in Hrun; simplify_eq
    | ].

Lemma row_evolves_refl r : row_evolves r r.
Proof. unfold row_evolves. tauto. Qed.

Lemma row_evolves_trans r1 r2 r3 :
  row_evolves r1 r2 → row_evolves r2 r3 → row_evolves r1 r3.
Proof.
  intros (Hi & Hr & Hd & He & Ho) (Hi' & Hr' & Hd' & He' & Ho').
  unfold row_evolves. split_and!.
  - congruence.
  - intros H. destruct (Hr H) as [H1 H2]. destruct (Hr' H1) as [H3 H4].
    split; congruence.
  - auto.
  - auto.
  - intros H. rewrite <- (Ho H). apply Ho'. by rewrite (Ho H).
Qed.

Lemma table_evolves_refl l : table_evolves l l.
Proof. intros i r Hi. exists r. split; [done|apply row_evolves_refl]. Qed.

Lemma table_evolves_trans l1 l2 l3 :
  table_evolves l1 l2 → table_evolves l2 l3 → table_evolves l1 l3.
Proof.
  intros H12 H23 i r Hi. destruct (H12 i r Hi) as (r2 & Hi2 & He2).
  destruct (H23 i r2 Hi2) as (r3 & Hi3 & He3).
  exists r3. split; [done|]. by eapply row_evolves_trans.
Qed.

(** A statement that rewrites rows in place, each into a later state of
    itself, makes the table evolve. *)
Lemma table_evolves_map (hit : message_row → bool) f l :
  (∀ r, hit r = true → row_evolves r (f r)) →
  table_evolves l (map (fun r => if hit r then f r else r) l).
Proof.
  intros Hf i r Hi. rewrite list_lookup_fmap, Hi. simpl.
  eexists. split; [done|]. destruct (hit r) eqn:Hh.
  - by apply Hf.
  - apply row_evolves_refl.
Qed.

Lemma store_write_evolves d d' :
  store_write d d' → table_evolves (messages d) (messages d').
Proof.
  intros Hw. invert_write Hw; simpl.
  - apply table_evolves_refl.
  - intros i r Hi. exists r. split; [|apply row_evolves_refl].
    by apply lookup_app_l_Some.
  - apply table_evolves_map. intros r Hr. apply read_target_spec in Hr.
    destruct Hr as (_ & _ & Hr). unfold row_evolves. simpl.
    split_and!; try done. congruence.
  - apply (table_evolves_map (fun r => bool_decide (row_id r = mid))).
    intros r _. unfold row_evolves. simpl. split_and!; done.
  - apply (table_evolves_map (fun r => bool_decide (row_id r = mid))).
    intros r _. unfold row_evolves. simpl. split_and!; try done.
    intros [o Ho]. by rewrite Ho.
  - apply (table_evolves_map
             (fun r => bool_decide (row_id r = mid)
                       && bool_decide (sender_id r = sender))).
    intros r _. unfold row_evolves. simpl. split_and!; done.
  - apply table_evolves_refl.
Qed.

Lemma serves_evolves w w' :
  rtc serves w w' →
  table_evolves (messages (w_db w)) (messages (w_db w')).
Proof.
  induction 1 as [w|w w1 w2 Hstep _ IH]; [apply table_evolves_refl|].
  eapply table_evolves_trans; [|exact IH].
  destruct Hstep; [|apply table_evolves_refl].
  apply store_write_evolves, handle_writes.
Qed.

Lemma prefix_of_lookup {A} (l1 l2 : list A) :
  (∀ i x, l1 !! i = Some x → l2 !! i = Some x) → l1 `prefix_of` l2.
Proof.
  revert l2. induction l1 as [|a l1 IH]; intros l2 Hl; [apply prefix_nil|].
  destruct l2 as [|b l2]; [by specialize (Hl 0 a eq_refl)|].
  pose proof (Hl 0 a eq_refl) as H0. simplify_eq/=.
  apply prefix_cons, IH. intros i x Hi. exact (Hl (S i) x Hi).
Qed.

(** X2. Messages are never removed, moved or re-attributed. Along any run of
    the server, whatever the requests, their inputs and the store's
    faults, the messages stored at the start are still there at the same
    positions with the same id, sender, receiver and creation time: the
    table only grows at its end. *)
Theorem messages_are_never_removed w w' :
  rtc serves w w' →
  identity <$> messages (w_db w)
    `prefix_of` identity <$> messages (w_db w').
Proof.
  intros Hrun. apply serves_evolves in Hrun.
  apply prefix_of_lookup. intros i k Hi.
  rewrite list_lookup_fmap in Hi |- *.
  destruct (messages (w_db w) !! i) as [r|] eqn:Hr; simplify_eq/=.
  destruct (Hrun i r Hr) as (r' & -> & Hid & _). simpl. by rewrite Hid.
Qed.

Lemma messages_are_never_removed_witness :
  let w := with_rows [m1] quiet in
  let w' := handle (Rest_delete "u-alice" "m1")
              (handle (Send_message alice hello true) w) in
  identity <$> messages (w_db w)
    `prefix_of` identity <$> messages (w_db w').
Proof.
  intros w w'. apply (messages_are_never_removed w w').
  eapply rtc_l; [apply (serves_request (Send_message alice hello true))|].
  eapply rtc_l; [apply (serves_request (Rest_delete "u-alice" "m1"))|].
  apply rtc_refl.
Defined.

(** X3. The flags of a message are one-way. Along any run of the server, a
    message that is read stays read with the read-at time it had, a
    deleted message stays deleted, an edited message stays edited, and an
    original content, once recorded, is never replaced. *)
Theorem message_flags_are_one_way w w' i r :
  rtc serves w w' →
  messages (w_db w) !! i = Some r →
  ∃ r',
    messages (w_db w') !! i = Some r'
    ∧ (is_read r = true → is_read r' = true ∧ read_at r' = read_at r)
    ∧ (is_deleted r = true → is_deleted r' = true)
    ∧ (is_edited r = true → is_edited r' = true)
    ∧ (is_Some (original_content r) →
         original_content r' = original_content r).
Proof.
  intros Hrun Hi. apply serves_evolves in Hrun.
  destruct (Hrun i r Hi) as (r' & Hi' & _ & Hr & Hd & He & Ho).
  exists r'. by split_and!.
Qed.

Lemma message_flags_are_one_way_witness :
  let w := with_rows [m1_deleted] quiet in
  let w' := handle (Edit_message alice (edit_to (js "v2")))
              (handle (Mark_read bob {| mr_messageIds := Some ["m1"];
                                        mr_senderId := None |}) w) in
  ∃ r',
    messages (w_db w') !! 0 = Some r'
    ∧ (is_read m1_deleted = true →
         is_read r' = true ∧ read_at r' = read_at m1_deleted)
    ∧ (is_deleted m1_deleted = true → is_deleted r' = true)
    ∧ (is_edited m1_deleted = true → is_edited r' = true)
    ∧ (is_Some (original_content m1_deleted) →
         original_content r' = original_content m1_deleted).
Proof.
  intros w w'. apply (message_flags_are_one_way w w' 0 m1_deleted).
  - eapply rtc_l;
      [apply (serves_request
                (Mark_read bob {| mr_messageIds := Some ["m1"];
                                  mr_senderId := None |}))|].
    eapply rtc_l;
      [apply (serves_request (Edit_message alice (edit_to (js "v2"))))|].
    apply rtc_refl.
  - reflexivity.
Defined.

Lemma stamped_new_row id t sender receiver c :
  stamped (new_row id t sender receiver c).
Proof. unfold stamped. simpl. split_and!; discriminate. Qed.

Lemma Forall_stamped_map (hit : message_row → bool) f l :
  (∀ r, stamped r → stamped (f r)) →
  Forall stamped l →
  Forall stamped (map (fun r => if hit r then f r else r) l).
Proof.
  intros Hf Hl. apply Forall_fmap. eapply Forall_impl; [exact Hl|].
  intros r Hr. simpl. destruct (hit r); auto.
Qed.

Lemma store_write_stamped d d' :
  store_write d d' →
  Forall stamped (messages d) → Forall stamped (messages d').
Proof.
  intros Hw. invert_write Hw; simpl; intros Hall; try done.
  - apply Forall_app. split; [done|].
    constructor; [apply stamped_new_row|constructor].
  - apply Forall_stamped_map; [|done].
    intros r (Hr & He & Hd). unfold stamped. simpl. by split_and!.
  - apply (Forall_stamped_map (fun r => bool_decide (row_id r = mid)));
      [|done].
    intros r (Hr & He & Hd). unfold stamped. simpl. by split_and!.
  - apply (Forall_stamped_map (fun r => bool_decide (row_id r = mid)));
      [|done].
    intros r (Hr & He & Hd). unfold stamped. simpl. by split_and!.
  - apply (Forall_stamped_map
             (fun r => bool_decide (row_id r = mid)
                       && bool_decide (sender_id r = sender))); [|done].
    intros r (Hr & He & Hd). unfold stamped. simpl. by split_and!.
Qed.

(** Whatever a request writes, every row keeps holding its content as
    the store holds text; so a content read from the store can be sent
    back to it as it is. *)
Lemma store_write_held d d' :
  store_write d d' →
  Forall held (messages d) → Forall held (messages d').
Proof.
  assert (Hmap : ∀ (hit : message_row → bool) f (l : list message_row),
    (∀ r, held r → held (f r)) → Forall held l →
    Forall held (map (fun r => if hit r then f r else r) l)).
  { intros hit f l Hf Hl. apply Forall_fmap. eapply Forall_impl; [exact Hl|].
    intros r Hr. simpl. destruct (hit r); auto. }
  assert (Hutf : ∀ c, 0%N ∉ c → pg_text (utf8 c) = Some (utf8 c)).
  { intros c Hz. apply (pg_text_held c). by apply pg_text_Some. }
  intros Hw.
  destruct Hw as [d0|id t sender receiver c d0 row d1 Hrun|t ids reader d0
                 |t mid d0|t c old mid d0 rows d1 Hrun
                 |t c mid sender d0 rows d1 Hrun|t uid d0];
    intros Hall; try done.
  - apply sql_insert_message_Some in Hrun as (Hz & -> & ->). simpl.
    apply Forall_app. split; [done|]. constructor; [|constructor].
    by apply Hutf.
  - simpl. by apply Hmap.
  - simpl. apply (Hmap (fun r => bool_decide (row_id r = mid))); [|done].
    intros r _. reflexivity.
  - apply sql_update_edit_Some in Hrun as (Hz & _ & Hrun).
    unfold update_returning in Hrun. simplify_eq. simpl.
    apply (Hmap (fun r => bool_decide (row_id r = mid))); [|done].
    intros r _. by apply Hutf.
  - apply sql_update_content_Some in Hrun as (Hz & Hrun).
    unfold update_returning in Hrun. simplify_eq. simpl.
    apply (Hmap (fun r => bool_decide (row_id r = mid)
                          && bool_decide (sender_id r = sender))); [|done].
    intros r _. by apply Hutf.
Qed.

Lemma serves_held w w' :
  rtc serves w w' →
  Forall held (messages (w_db w)) → Forall held (messages (w_db w')).
Proof.
  induction 1 as [w|w w1 w2 Hstep _ IH]; [done|].
  intros Hall. apply IH. destruct Hstep; [|done].
  eapply store_write_held; [apply handle_writes|done].
Qed.

(** X4. Flags never come without their timestamps. If every stored message
    that is read, edited or deleted has the matching read-at, edited-at
    or deleted-at time, then so it is after any run of the server. *)
Theorem flags_carry_their_timestamps w w' :
  rtc serves w w' →
  Forall stamped (messages (w_db w)) →
  Forall stamped (messages (w_db w')).
Proof.
  induction 1 as [w|w w1 w2 Hstep _ IH]; [done|].
  intros Hall. apply IH. destruct Hstep; [|done].
  eapply store_write_stamped; [apply handle_writes|done].
Qed.

Lemma flags_carry_their_timestamps_witness :
  let w := with_rows [m1] quiet in
  let w' := handle (Rest_delete "u-alice" "m1")
              (handle (Rest_edit "u-alice" "m1" (Some (js "v2"))) w) in
  Forall stamped (messages (w_db w')).
Proof.
  intros w w'. apply (flags_carry_their_timestamps w w').
  - eapply rtc_l;
      [apply (serves_request (Rest_edit "u-alice" "m1" (Some (js "v2"))))|].
    eapply rtc_l; [apply (serves_request (Rest_delete "u-alice" "m1"))|].
    apply rtc_refl.
  - repeat constructor; simpl; discriminate.
Defined.

Lemma store_write_directory d d' :
  store_write d d' → directory d' = directory d.
Proof.
  intros Hw. invert_write Hw; try done. unfold directory. simpl.
  apply map_eq. intros k. rewrite !lookup_fmap, lookup_alter.
  case_decide; [subst|done]. by destruct (users d0 !! k).
Qed.

(** X5. No request creates, removes or renames a user. Along any run of the
    server the ids in the [users] table and the username stored under
    each stay what they were; only the presence columns move. *)
Theorem users_are_never_created_or_renamed w w' :
  rtc serves w w' → directory (w_db w') = directory (w_db w).
Proof.
  induction 1 as [w|w w1 w2 Hstep _ IH]; [done|].
  rewrite IH. destruct Hstep; [|done].
  apply store_write_directory, handle_writes.
Qed.

Lemma users_are_never_created_or_renamed_witness :
  let w' := handle (Disconnect bob 1500)
              (handle (Send_message alice hello true) quiet) in
  directory (w_db w') = directory (w_db quiet).
Proof.
  intros w'. apply (users_are_never_created_or_renamed quiet w').
  eapply rtc_l; [apply (serves_request (Send_message alice hello true))|].
  eapply rtc_l; [apply (serves_request (Disconnect bob 1500))|].
  apply rtc_refl.
Defined.

(** X6. Only connecting and disconnecting touch the registry. Every other
    request, whatever its input and the store's faults, leaves the
    registry of connections and the set of connected sockets as they
    were. *)
Theorem only_connections_change_the_registry r w :
  match r with
  | Connect _ | Disconnect _ _ => True
  | _ =>
      connectedUsers (handle r w) = connectedUsers w
      ∧ io_sockets (handle r w) = io_sockets w
  end.
Proof.
  destruct r as [sk data cb|sk data|sk data cb|sk data|sk rid|sk rid|uid cb|u p q|u n p c|u ids|u mid|u mid c|sk|sk later];
    simpl; try done.
  - unfold send_message.
    destruct (sm_receiverId data), (sm_content data); run_handler; done.
  - unfold mark_read.
    destruct (mr_messageIds data) as [[|??]|], (mr_senderId data);
      run_handler; done.
  - unfold get_history. destruct (gh_partnerId data); run_handler; done.
  - unfold edit_message. run_handler; done.
  - unfold typing. destruct rid; run_handler; done.
  - unfold stop_typing. destruct rid; run_handler; done.
  - unfold get_user_status. destruct uid; run_handler; done.
  - unfold rest_get_history. run_handler; done.
  - unfold rest_send. destruct c; run_handler; done.
  - unfold rest_mark_read. destruct ids as [[|??]|]; run_handler; done.
  - unfold rest_delete. run_handler; done.
  - unfold rest_edit. destruct c; run_handler; done.
Qed.

(** ** Sending: the other outcomes *)

(** X7. A message for a receiver who is not in [users] is not stored. When
    the store answers and the content is valid, [send_message] to an
    unknown receiver runs the lookup only, leaves the world as it was, and
    reports "Recipient not found" under the caller's [tempId], on the
    callback when there is one and as [message_error]. *)
Theorem send_to_unknown_receiver_is_refused sk rid c tempId callback w :
  w_faults w = [] →
  users (w_db w) !! rid = None →
  rid ≠ "" →
  0 < length (trim c) →
  length c ≤ 5000 →
  let data := {| sm_receiverId := Some rid; sm_content := Some c;
                 sm_tempId := tempId |} in
  final (send_message sk data callback) w = w
  ∧ trace (send_message sk data callback) w
    = [Sql (Q_select_user rid)]
        ++ (if callback then [Ack (P_error tempId "Recipient not found")]
            else [])
        ++ [Emit (socket_id sk) "message_error"
              (P_error tempId "Recipient not found")].
Proof.
  intros Hf Hu Hrid Hlo Hhi data.
  assert (Hc : c ≠ []) by (intros ->; simpl in Hlo; lia).
  unfold final, trace, send_message; simpl.
  rewrite !bool_decide_eq_false_2 by (done || lia). simpl.
  unfold try_catch, bind.
  rewrite query_ok by done. simpl.
  unfold sql_select_user. rewrite Hu. simpl.
  split; [apply set_db_same|done].
Qed.

Lemma send_to_unknown_receiver_is_refused_witness :
  let data := {| sm_receiverId := Some "u-carol"; sm_content := Some (js "hi");
                 sm_tempId := "tmp-2" |} in
  final (send_message alice data false) quiet = quiet
  ∧ trace (send_message alice data false) quiet
    = [Sql (Q_select_user "u-carol")] ++ []
        ++ [Emit "s-alice" "message_error"
              (P_error "tmp-2" "Recipient not found")].
Proof.
  intros data.
  apply (send_to_unknown_receiver_is_refused alice "u-carol" (js "hi")
           "tmp-2" false quiet).
  - reflexivity.
  - reflexivity.
  - discriminate.
  - vm_compute. lia.
  - vm_compute. lia.
Defined.

(** X8. A store that fails stores nothing and the sender is told. When the
    receiver lookup throws, or the lookup succeeds and the [INSERT]
    throws, [send_message] with valid input leaves the store as it was
    and the only replies are the error "Failed to send message" under the
    caller's [tempId]; nothing is pushed to the receiver. *)
Theorem send_with_failing_store_stores_nothing
    sk rid ru c tempId callback fs w :
  w_faults w = true :: fs
    ∨ (w_faults w = false :: true :: fs ∧ users (w_db w) !! rid = Some ru) →
  rid ≠ "" →
  0 < length (trim c) →
  length c ≤ 5000 →
  let data := {| sm_receiverId := Some rid; sm_content := Some c;
                 sm_tempId := tempId |} in
  w_db (final (send_message sk data callback) w) = w_db w
  ∧ filter (fun e => is_reply e = true)
      (trace (send_message sk data callback) w)
    = (if callback then [Ack (P_error tempId "Failed to send message")]
       else [])
        ++ [Emit (socket_id sk) "message_error"
              (P_error tempId "Failed to send message")].
Proof.
  intros Hf Hrid Hlo Hhi data.
  assert (Hc : c ≠ []) by (intros ->; simpl in Hlo; lia).
  unfold final, trace, send_message; simpl.
  rewrite !bool_decide_eq_false_2 by (done || lia). simpl.
  unfold try_catch, bind, query, query_text.
  destruct Hf as [Hf|[Hf Hu]]; rewrite Hf; simpl.
  - by destruct callback.
  - unfold sql_select_user. rewrite Hu. simpl. by destruct callback.
Qed.

Lemma send_with_failing_store_stores_nothing_witness :
  let data := hello in
  let w := set_faults [false; true] quiet in
  w_db (final (send_message alice data true) w) = w_db w
  ∧ filter (fun e => is_reply e = true)
      (trace (send_message alice data true) w)
    = [Ack (P_error "tmp-1" "Failed to send message")]
        ++ [Emit "s-alice" "message_error"
              (P_error "tmp-1" "Failed to send message")].
Proof.
  intros data w.
  apply (send_with_failing_store_stores_nothing alice "u-bob" (offline "bob")
           (js " hi ") "tmp-1" true [] w).
  - right. split; reflexivity.
  - discriminate.
  - vm_compute. lia.
  - vm_compute. lia.
Defined.

(** X9. The push follows the registry. When a valid [send_message] is stored
    (the store answers, and takes the text: the trimmed content holds no
    U+0000), the receiver's socket gets exactly one [receive_message],
    carrying the message object the sender is confirmed with, if the
    receiver is in the registry; if not, nothing is pushed to anyone and
    the message is in the store only. *)
Theorem push_goes_to_the_registered_receiver_only
    sk rid ru c tempId callback w :
  w_faults w = [] →
  users (w_db w) !! rid = Some ru →
  rid ≠ "" →
  0 < length (trim c) →
  length c ≤ 5000 →
  0%N ∉ trim c →
  let data := {| sm_receiverId := Some rid; sm_content := Some c;
                 sm_tempId := tempId |} in
  let row := new_row (w_uuid w) (w_now w) (userId sk) rid (utf8 (trim c)) in
  let m := message_of_insert row (user_username sk) in
  let tr := trace (send_message sk data callback) w in
  row ∈ messages (w_db (final (send_message sk data callback) w))
  ∧ Emit (socket_id sk) "message_sent" (P_sent tempId m) ∈ tr
  ∧ filter (fun e => is_push e = true) tr
    = match connectedUsers w !! rid with
      | Some s => [Emit s "receive_message" (P_receive m)]
      | None => []
      end.
Proof.
  intros Hf Hu Hrid Hlo Hhi Hz data row m tr.
  pose proof (send_message_run sk rid ru c tempId callback w
                Hf Hu Hrid Hlo Hhi Hz) as Hrun.
  simpl in Hrun. subst tr data. unfold final, trace. rewrite Hrun. simpl.
  split_and!.
  - set_solver.
  - destruct callback; set_solver.
  - by destruct callback, (connectedUsers w !! rid).
Qed.

Lemma push_goes_to_the_registered_receiver_only_witness :
  let w := set_connectedUsers ∅ quiet in
  let row := new_row "m1" 1000 "u-alice" "u-bob" (js "hi") in
  let m := message_of_insert row "alice" in
  let tr := trace (send_message alice hello true) w in
  row ∈ messages (w_db (final (send_message alice hello true) w))
  ∧ Emit "s-alice" "message_sent" (P_sent "tmp-1" m) ∈ tr
  ∧ filter (fun e => is_push e = true) tr = [].
Proof.
  intros w row m tr.
  apply (push_goes_to_the_registered_receiver_only alice "u-bob"
           (offline "bob") (js " hi ") "tmp-1" true w).
  - reflexivity.
  - reflexivity.
  - discriminate.
  - vm_compute. lia.
  - vm_compute. lia.
  - apply (bool_decide_unpack _). vm_compute. exact I.
Defined.

(** ** Sending over REST *)

Lemma rest_send_run user uname rid ru c w :
  w_faults w = [] →
  users (w_db w) !! rid = Some ru →
  0 < length (trim c) →
  length c ≤ 5000 →
  0%N ∉ trim c →
  let row := new_row (w_uuid w) (w_now w) user rid (utf8 (trim c)) in
  rest_send user uname rid (Some c) w
  = (Ok (Some (message_of_insert row uname)),
     set_db (with_messages (messages (w_db w) ++ [row]) (w_db w)) w,
     [Sql (Q_select_user rid);
      Sql (Q_insert_message user rid (utf8 (trim c)))]).
Proof.
  intros Hf Hu Hlo Hhi Hz row.
  assert (Hc : c ≠ []) by (intros ->; simpl in Hlo; lia).
  unfold rest_send, blank.
  rewrite !bool_decide_eq_false_2 by (done || lia). simpl.
  unfold try_catch, bind.
  rewrite query_ok by done. simpl.
  unfold sql_select_user. rewrite Hu. simpl.
  by rewrite (query_text_ok _ _ _ row
                (with_messages (messages (w_db w) ++ [row]) (w_db w)))
    by (done || by apply sql_insert_message_Some).
Qed.

(** X10. The REST fallback stores what the socket would, and pushes nothing.
    For a valid content, a known receiver and a store that answers and
    takes the text (the trimmed content holds no U+0000),
    [POST /:partnerId] leaves the store exactly as [send_message] by the
    same user would, answers 201 with the message object the socket
    confirms with, and emits no socket event at all, so a receiver who is
    connected is not told. *)
Theorem rest_send_stores_like_the_socket_and_pushes_nothing
    sk rid ru c tempId callback w :
  w_faults w = [] →
  store_wf (w_db w) →
  users (w_db w) !! rid = Some ru →
  0 < length (trim c) →
  length c ≤ 5000 →
  0%N ∉ trim c →
  let data := {| sm_receiverId := Some rid; sm_content := Some c;
                 sm_tempId := tempId |} in
  let rest := rest_send (userId sk) (user_username sk) rid (Some c) in
  w_db (final rest w) = w_db (final (send_message sk data callback) w)
  ∧ (∃ m, result rest w = Some (Some m)
          ∧ Emit (socket_id sk) "message_sent" (P_sent tempId m)
              ∈ trace (send_message sk data callback) w)
  ∧ filter (fun e => is_event e = true) (trace rest w) = [].
Proof.
  intros Hf Hwf Hu Hlo Hhi Hz data rest.
  assert (Hrid : rid ≠ "").
  { intros ->. unfold store_wf in Hwf. congruence. }
  pose proof (send_message_run sk rid ru c tempId callback w
                Hf Hu Hrid Hlo Hhi Hz) as Hrun.
  pose proof (rest_send_run (userId sk) (user_username sk) rid ru c w
                Hf Hu Hlo Hhi Hz) as Hrest.
  simpl in Hrun, Hrest. subst data rest.
  unfold final, trace, result. rewrite Hrun, Hrest. simpl.
  split_and!; [done| |done].
  eexists. split; [done|]. destruct callback; set_solver.
Qed.

Lemma rest_send_stores_like_the_socket_and_pushes_nothing_witness :
  let rest := rest_send "u-alice" "alice" "u-bob" (Some (js " hi ")) in
  w_db (final rest quiet) = w_db (final (send_message alice hello true) quiet)
  ∧ (∃ m, result rest quiet = Some (Some m)
          ∧ Emit "s-alice" "message_sent" (P_sent "tmp-1" m)
              ∈ trace (send_message alice hello true) quiet)
  ∧ filter (fun e => is_event e = true) (trace rest quiet) = [].
Proof.
  intros rest.
  apply (rest_send_stores_like_the_socket_and_pushes_nothing alice "u-bob"
           (offline "bob") (js " hi ") "tmp-1" true quiet).
  - reflexivity.
  - reflexivity.
  - reflexivity.
  - vm_compute. lia.
  - vm_compute. lia.
  - apply (bool_decide_unpack _). vm_compute. exact I.
Defined.

(** X11. [POST /:partnerId] answers every request and writes only with a 201.
    Whatever the body and the store's faults, the route does not throw;
    either it answers 201 with the message object of the one row it
    appended, whose content is the trimmed body as the store holds text
    (no U+0000 in it, an unpaired surrogate held as U+FFFD), or it
    answers 400, 404 or 500 as its last action and leaves the store as it
    was. *)
Theorem rest_send_writes_only_with_201 user uname rid body w :
  let rest := rest_send user uname rid body in
  match result rest w with
  | Some (Some m) =>
      ∃ c row,
        body = Some c
        ∧ messages (w_db (final rest w)) = messages (w_db w) ++ [row]
        ∧ m = message_of_insert row uname
        ∧ sender_id row = user ∧ receiver_id row = rid
        ∧ content row = utf8 (trim c)
        ∧ (0%N ∉ trim c)
        ∧ 0 < length (trim c) ∧ length c ≤ 5000
  | Some None =>
      w_db (final rest w) = w_db w
      ∧ ∃ code msg,
          last (trace rest w) = Some (Respond code (R_status false msg))
          ∧ code ∈ [400; 404; 500]
  | None => False
  end.
Proof.
  intros rest. subst rest. unfold result, final, trace, rest_send.
  destruct body as [c|]; simpl.
  2: { split; [done|]. exists 400, "Message content is required".
       split; [done|set_solver]. }
  unfold blank. unfold try_catch, bind.
  destruct (bool_decide (c = [])) eqn:Hc; simpl.
  { split; [done|]. eexists 400, _. split; [done|set_solver]. }
  destruct (bool_decide (length (trim c) = 0)) eqn:Ht; simpl.
  { split; [done|]. eexists 400, _. split; [done|set_solver]. }
  destruct (bool_decide (5000 < length c)) eqn:Hl; simpl.
  { split; [done|]. eexists 400, _. split; [done|set_solver]. }
  apply bool_decide_eq_false in Ht, Hl.
  step_query.
  { split; [done|]. eexists 500, _. split; [done|set_solver]. }
  destruct (sql_select_user rid (w_db w)); simpl.
  { split; [done|]. eexists 404, _. split; [done|set_solver]. }
  step_query.
  { split; [done|]. eexists 500, _. split; [done|set_solver]. }
  simpl in Hrun. apply sql_insert_message_Some in Hrun as (Hz & -> & ->).
  exists c, (new_row (w_uuid w) (w_now w) user rid (utf8 (trim c))).
  split_and!; try done; lia.
Qed.

(** ** History: what a page holds *)

(** Whatever the faults, a history reply of either path is built from the
    rows of the history query on the store as it is. *)
Lemma history_reply_inv sk partner lim before callback w e ms hm cur :
  e ∈ trace (get_history sk {| gh_partnerId := Some partner; gh_limit := lim;
                               gh_before := before |} callback) w
    ∨ e ∈ trace (rest_get_history (userId sk) partner
                   {| q_limit := lim; q_before := before |}) w →
  page_in e = Some (ms, hm, cur) →
  let rows := sql_select_history (userId sk) partner before
                (default 50 lim) (w_db w) in
  ms = reverse (map message_of_history rows)
  ∧ hm = bool_decide (length rows = default 50 lim)
  ∧ cur = next_cursor hm rows.
Proof.
  intros [He|He] Hp rows; revert He.
  - unfold get_history. run_handler; intros He; set_unfold; destruct_or?;
      subst; simpl in Hp; simplify_eq; done.
  - unfold rest_get_history. run_handler; intros He; set_unfold;
      destruct_or?; subst; simpl in Hp; simplify_eq; done.
Qed.

(** Each row of the history query is a stored message of the
    conversation, older than the cursor if there is one, joined with the
    username of its sender. *)
Lemma sql_select_history_row me partner before limit d h :
  h ∈ sql_select_history me partner before limit d →
  h_msg h ∈ messages d
  ∧ ((sender_id (h_msg h) = me ∧ receiver_id (h_msg h) = partner)
     ∨ (sender_id (h_msg h) = partner ∧ receiver_id (h_msg h) = me))
  ∧ (∀ t, before = Some t → (created_at (h_msg h) < t)%Z)
  ∧ ∃ u, users d !! sender_id (h_msg h) = Some u
         ∧ sender_username h = username u.
Proof.
  unfold sql_select_history. intros Hh.
  apply (subseteq_take limit) in Hh.
  rewrite merge_sort_Permutation in Hh.
  apply list_elem_of_omap in Hh as (r & Hr & Hj).
  apply list_elem_of_filter in Hr as [Hp Hr].
  unfold join_sender in Hj.
  destruct (users d !! sender_id r) as [u|] eqn:Hu; simplify_eq/=.
  apply andb_prop_elim in Hp as [H1 H2].
  split_and!; [done| | |by exists u].
  - unfold in_conversation in H1.
    apply orb_prop_elim in H1 as [H1|H1];
      apply andb_prop_elim in H1 as [Ha Hb];
      apply bool_decide_unpack in Ha, Hb; auto.
  - intros t ->. simpl in H2. by apply bool_decide_unpack in H2.
Qed.

(** X12. A history page shows only the conversation asked for. Whatever the
    store's faults, every message of a page that [get_history] or
    [GET /:partnerId] hands out is a stored message exchanged between the
    caller and the named partner, in either direction, older than the
    [before] cursor when one is given, shown with the stored username of
    its sender. *)
Theorem history_shows_only_the_conversation
    sk partner lim before callback w e ms hm cur m :
  e ∈ trace (get_history sk {| gh_partnerId := Some partner; gh_limit := lim;
                               gh_before := before |} callback) w
    ∨ e ∈ trace (rest_get_history (userId sk) partner
                   {| q_limit := lim; q_before := before |}) w →
  page_in e = Some (ms, hm, cur) →
  m ∈ ms →
  ∃ r u,
    r ∈ messages (w_db w)
    ∧ users (w_db w) !! sender_id r = Some u
    ∧ m = shown r (username u)
    ∧ ((sender_id r = userId sk ∧ receiver_id r = partner)
       ∨ (sender_id r = partner ∧ receiver_id r = userId sk))
    ∧ (∀ t, before = Some t → (created_at r < t)%Z).
Proof.
  intros He Hp Hm.
  destruct (history_reply_inv _ _ _ _ _ _ _ _ _ _ He Hp) as (-> & _ & _).
  rewrite elem_of_reverse in Hm.
  apply list_elem_of_fmap in Hm as (h & -> & Hh).
  apply sql_select_history_row in Hh as (Hin & Hconv & Hbef & u & Hu & Hn).
  exists (h_msg h), u. split_and!; try done.
  unfold shown. destruct h as [r n]. simpl in *. by subst n.
Qed.

Lemma history_shows_only_the_conversation_witness :
  let w := with_rows [m1] quiet in
  let data := {| gh_partnerId := Some "u-alice"; gh_limit := None;
                 gh_before := None |} in
  ∃ r u,
    r ∈ messages (w_db w)
    ∧ users (w_db w) !! sender_id r = Some u
    ∧ shown m1 "alice" = shown r (username u)
    ∧ ((sender_id r = "u-bob" ∧ receiver_id r = "u-alice")
       ∨ (sender_id r = "u-alice" ∧ receiver_id r = "u-bob"))
    ∧ (∀ t, None = Some t → (created_at r < t)%Z).
Proof.
  intros w data.
  apply (history_shows_only_the_conversation bob "u-alice" None None true w
           (Ack (P_history [shown m1 "alice"] false C_null))
           [shown m1 "alice"] false C_null (shown m1 "alice")).
  - left. vm_compute. apply list_elem_of_lookup. by exists 1.
  - reflexivity.
  - left.
Defined.

Global Instance newer_first_trans : Transitive newer_first.
Proof. intros a b c. unfold newer_first. lia. Qed.

(** In the rows of a history query, the last row is the oldest. *)
Lemma last_row_is_oldest me partner before limit d h x :
  last (sql_select_history me partner before limit d) = Some h →
  x ∈ sql_select_history me partner before limit d →
  (created_at (h_msg h) ≤ created_at (h_msg x))%Z.
Proof.
  intros Hlast Hx.
  pose proof (sql_select_history_sorted me partner before limit d) as Hs.
  apply Sorted_StronglySorted in Hs; [|apply _].
  apply last_Some in Hlast as [l' Hl]. rewrite Hl in Hs, Hx.
  apply elem_of_app in Hx as [Hx|Hx].
  - apply (StronglySorted_app_1_elem_of _ _ _ x h) in Hs; [done|done|left].
  - apply list_elem_of_singleton in Hx. subst x. done.
Qed.

(** X13. Following the cursor goes strictly back in time. If a history page
    comes with the cursor [t], then every message of that page was
    created at [t] or later, and every message of any page requested with
    [before = t], from either path and at any later state of the store,
    was created strictly before [t]: consecutive pages never overlap. *)
Theorem next_page_is_strictly_older
    sk partner lim lim' before callback callback' w w'
    e1 ms1 hm1 t e2 ms2 hm2 cur2 m1 m2 :
  e1 ∈ trace (get_history sk {| gh_partnerId := Some partner;
                                gh_limit := lim; gh_before := before |}
                callback) w
    ∨ e1 ∈ trace (rest_get_history (userId sk) partner
                    {| q_limit := lim; q_before := before |}) w →
  page_in e1 = Some (ms1, hm1, C_at t) →
  e2 ∈ trace (get_history sk {| gh_partnerId := Some partner;
                                gh_limit := lim'; gh_before := Some t |}
                callback') w'
    ∨ e2 ∈ trace (rest_get_history (userId sk) partner
                    {| q_limit := lim'; q_before := Some t |}) w' →
  page_in e2 = Some (ms2, hm2, cur2) →
  m1 ∈ ms1 →
  m2 ∈ ms2 →
  (createdAt m2 < t ≤ createdAt m1)%Z.
Proof.
  intros He1 Hp1 He2 Hp2 Hm1 Hm2.
  assert (Hold : (createdAt m2 < t)%Z).
  { destruct (history_reply_inv _ _ _ _ _ _ _ _ _ _ He2 Hp2) as (-> & _ & _).
    rewrite elem_of_reverse in Hm2.
    apply list_elem_of_fmap in Hm2 as (h2 & -> & Hh2).
    apply sql_select_history_row in Hh2 as (_ & _ & Hbef & _).
    exact (Hbef t eq_refl). }
  split; [exact Hold|].
  destruct (history_reply_inv _ _ _ _ _ _ _ _ _ _ He1 Hp1) as (-> & _ & Hcur).
  unfold next_cursor in Hcur. destruct hm1; [|done].
  destruct (last _) as [h|] eqn:Hlast; [|done]. simplify_eq.
  rewrite elem_of_reverse in Hm1.
  apply list_elem_of_fmap in Hm1 as (x & -> & Hx).
  exact (last_row_is_oldest _ _ _ _ _ _ _ Hlast Hx).
Qed.

Lemma next_page_is_strictly_older_witness :
  let w := with_rows [m1; m2] quiet in
  (createdAt (shown m1 "alice") < 20 ≤ createdAt (shown m2 "bob"))%Z.
Proof.
  intros w.
  apply (next_page_is_strictly_older bob "u-alice" (Some 1) (Some 1) None
           true true w w
           (Ack (P_history [shown m2 "bob"] true (C_at 20)))
           [shown m2 "bob"] true 20
           (Ack (P_history [shown m1 "alice"] true (C_at 10)))
           [shown m1 "alice"] true (C_at 10)
           (shown m2 "bob") (shown m1 "alice")).
  - left. vm_compute. apply list_elem_of_lookup. by exists 1.
  - reflexivity.
  - left. vm_compute. apply list_elem_of_lookup. by exists 1.
  - reflexivity.
  - left.
  - left.
Defined.

Lemma length_omap_le {A B} (f : A → option B) l :
  length (omap f l) ≤ length l.
Proof.
  induction l as [|a l IH]; [done|]. csimpl. destruct (f a); csimpl; lia.
Qed.

(** With a limit above the size of the table, the history query returns
    fewer rows than the limit and misses no row of the conversation. *)
Lemma sql_select_history_complete me partner before limit d :
  length (messages d) < limit →
  length (sql_select_history me partner before limit d) < limit
  ∧ ∀ r u,
      r ∈ messages d →
      (sender_id r = me ∧ receiver_id r = partner)
        ∨ (sender_id r = partner ∧ receiver_id r = me) →
      (∀ t, before = Some t → (created_at r < t)%Z) →
      users d !! sender_id r = Some u →
      {| h_msg := r; sender_username := username u |}
        ∈ sql_select_history me partner before limit d.
Proof.
  intros Hlen. unfold sql_select_history.
  set (conv := filter _ (messages d)).
  assert (Hshort : length (merge_sort newer_first (omap (join_sender d) conv))
                   < limit).
  { pose proof (Permutation_length
                  (merge_sort_Permutation newer_first
                     (omap (join_sender d) conv))) as Hperm.
    pose proof (length_omap_le (join_sender d) conv).
    pose proof (length_filter
                  (fun r => in_conversation me partner r
                            && before_cursor before r) (messages d)).
    subst conv. lia. }
  rewrite take_ge by lia. split; [done|].
  intros r u Hr Hconv Hbef Hu.
  rewrite merge_sort_Permutation.
  apply list_elem_of_omap. exists r. split.
  - subst conv. apply list_elem_of_filter. split; [|done].
    apply andb_prop_intro. split.
    + unfold in_conversation. apply orb_prop_intro.
      destruct Hconv as [[H1 H2]|[H1 H2]]; [left|right];
        apply andb_prop_intro; split; by apply bool_decide_pack.
    + destruct before as [t|]; simpl; [|done].
      apply bool_decide_pack. by apply Hbef.
  - unfold join_sender. by rewrite Hu.
Qed.

(** X14. A limit above the number of stored messages returns the whole
    conversation. When the store answers and the limit exceeds the size
    of the [messages] table, [get_history] and [GET /:partnerId] answer
    with [hasMore] false and no cursor, and the page holds every stored
    message between the two users that is older than the [before] cursor
    and whose sender is a known user, soft-deleted messages included. *)
Theorem a_large_limit_returns_the_whole_conversation
    sk partner pu lim before w :
  w_faults w = [] →
  partner ≠ "" →
  users (w_db w) !! partner = Some pu →
  length (messages (w_db w)) < default 50 lim →
  ∃ ms,
    trace (get_history sk {| gh_partnerId := Some partner; gh_limit := lim;
                             gh_before := before |} true) w
    = [Sql (Q_select_history (userId sk) partner before (default 50 lim));
       Ack (P_history ms false C_null)]
    ∧ trace (rest_get_history (userId sk) partner
               {| q_limit := lim; q_before := before |}) w
      = [Sql (Q_select_user partner);
         Sql (Q_select_history (userId sk) partner before (default 50 lim));
         Respond 200 (R_history ms false C_null (partner, username pu))]
    ∧ ∀ r u,
        r ∈ messages (w_db w) →
        (sender_id r = userId sk ∧ receiver_id r = partner)
          ∨ (sender_id r = partner ∧ receiver_id r = userId sk) →
        (∀ t, before = Some t → (created_at r < t)%Z) →
        users (w_db w) !! sender_id r = Some u →
        shown r (username u) ∈ ms.
Proof.
  intros Hf Hp Hu Hlen.
  destruct (sql_select_history_complete (userId sk) partner before
              (default 50 lim) (w_db w) Hlen) as [Hshort Hall].
  set (rows := sql_select_history (userId sk) partner before
                 (default 50 lim) (w_db w)) in *.
  assert (Hmore : bool_decide (length rows = default 50 lim) = false)
    by (apply bool_decide_eq_false_2; lia).
  exists (reverse (map message_of_history rows)). split_and!.
  - unfold trace, get_history. simpl.
    rewrite bool_decide_eq_false_2 by done.
    unfold try_catch, bind. rewrite query_ok by done. simpl.
    fold rows. by rewrite Hmore.
  - unfold trace, rest_get_history. simpl.
    unfold try_catch, bind. rewrite query_ok by done. simpl.
    unfold sql_select_user. rewrite Hu. simpl. rewrite query_ok by done.
    simpl. fold rows. by rewrite Hmore.
  - intros r u Hr Hconv Hbef Hsu. rewrite elem_of_reverse.
    apply list_elem_of_fmap.
    exists {| h_msg := r; sender_username := username u |}.
    split; [done|]. by apply Hall.
Qed.

Lemma a_large_limit_returns_the_whole_conversation_witness :
  let w := with_rows [m1_deleted; m2] quiet in
  ∃ ms,
    trace (get_history bob {| gh_partnerId := Some "u-alice"; gh_limit := None;
                              gh_before := None |} true) w
    = [Sql (Q_select_history "u-bob" "u-alice" None 50);
       Ack (P_history ms false C_null)]
    ∧ trace (rest_get_history "u-bob" "u-alice"
               {| q_limit := None; q_before := None |}) w
      = [Sql (Q_select_user "u-alice");
         Sql (Q_select_history "u-bob" "u-alice" None 50);
         Respond 200 (R_history ms false C_null ("u-alice", "alice"))]
    ∧ ∀ r u,
        r ∈ messages (w_db w) →
        (sender_id r = "u-bob" ∧ receiver_id r = "u-alice")
          ∨ (sender_id r = "u-alice" ∧ receiver_id r = "u-bob") →
        (∀ t, None = Some t → (created_at r < t)%Z) →
        users (w_db w) !! sender_id r = Some u →
        shown r (username u) ∈ ms.
Proof.
  intros w.
  apply (a_large_limit_returns_the_whole_conversation bob "u-alice"
           (offline "alice") None None w).
  - reflexivity.
  - discriminate.
  - reflexivity.
  - simpl. lia.
Defined.

Lemma get_history_run sk partner lim before w :
  w_faults w = [] →
  partner ≠ "" →
  let L := default 50 lim in
  let rows := sql_select_history (userId sk) partner before L (w_db w) in
  trace (get_history sk {| gh_partnerId := Some partner; gh_limit := lim;
                           gh_before := before |} true) w
  = [Sql (Q_select_history (userId sk) partner before L);
     Ack (P_history (reverse (map message_of_history rows))
            (bool_decide (length rows = L))
            (next_cursor (bool_decide (length rows = L)) rows))].
Proof.
  intros Hf Hp L rows. unfold trace, get_history. simpl.
  rewrite bool_decide_eq_false_2 by done.
  unfold try_catch, bind. by rewrite query_ok.
Qed.

(** X15. A stored message can be fetched by its receiver. After a valid
    [send_message] that the store accepted (it answers, and the trimmed
    content holds no U+0000), pushed or not, a [get_history] of the
    receiver for the conversation with the sender, with a limit above the
    size of the table, returns the message with the trimmed content as
    the store holds text: the trimmed content itself, except that an
    unpaired surrogate in it is held as U+FFFD. *)
Theorem a_sent_message_is_in_the_receivers_history
    sk rk ru su c tempId callback lim w :
  w_faults w = [] →
  store_wf (w_db w) →
  users (w_db w) !! userId rk = Some ru →
  users (w_db w) !! userId sk = Some su →
  0 < length (trim c) →
  length c ≤ 5000 →
  0%N ∉ trim c →
  length (messages (w_db w)) + 1 < default 50 lim →
  let data := {| sm_receiverId := Some (userId rk); sm_content := Some c;
                 sm_tempId := tempId |} in
  let w1 := final (send_message sk data callback) w in
  let ask := {| gh_partnerId := Some (userId sk); gh_limit := lim;
                gh_before := None |} in
  ∃ ms m,
    trace (get_history rk ask true) w1
    = [Sql (Q_select_history (userId rk) (userId sk) None (default 50 lim));
       Ack (P_history ms false C_null)]
    ∧ m ∈ ms
    ∧ senderId m = userId sk ∧ receiverId m = userId rk
    ∧ msg_content m = utf8 (trim c)
    ∧ createdAt m = w_now w.
Proof.
  intros Hf Hwf Hru Hsu Hlo Hhi Hz Hlen data w1 ask.
  assert (Hrid : userId rk ≠ "").
  { intros Heq. unfold store_wf in Hwf. rewrite Heq in Hru. congruence. }
  assert (Hsid : userId sk ≠ "").
  { intros Heq. unfold store_wf in Hwf. rewrite Heq in Hsu. congruence. }
  pose proof (send_message_run sk (userId rk) ru c tempId callback w
                Hf Hru Hrid Hlo Hhi Hz) as Hrun.
  simpl in Hrun.
  set (row := new_row (w_uuid w) (w_now w) (userId sk) (userId rk)
                (utf8 (trim c))) in *.
  assert (Hw1 : w1 = set_db (with_messages (messages (w_db w) ++ [row])
                               (w_db w)) w).
  { subst w1 data. unfold final. by rewrite Hrun. }
  assert (Hlen1 : length (messages (w_db w1)) < default 50 lim).
  { rewrite Hw1. simpl. rewrite length_app. simpl. lia. }
  destruct (sql_select_history_complete (userId rk) (userId sk) None
              (default 50 lim) (w_db w1) Hlen1) as [Hshort Hall].
  subst ask. rewrite get_history_run; [|by rewrite Hw1|done].
  rewrite (bool_decide_eq_false_2 _) by lia. simpl.
  eexists _, (shown row (username su)). split; [reflexivity|].
  split_and!; try done.
  rewrite elem_of_reverse. apply list_elem_of_fmap.
  exists {| h_msg := row; sender_username := username su |}.
  split; [done|]. apply Hall.
  - rewrite Hw1. simpl. set_solver.
  - by right.
  - done.
  - by rewrite Hw1.
Qed.

Lemma a_sent_message_is_in_the_receivers_history_witness :
  let w := set_connectedUsers ∅ (with_rows [m1] quiet) in
  let w1 := final (send_message alice hello false) w in
  let ask := {| gh_partnerId := Some "u-alice"; gh_limit := None;
                gh_before := None |} in
  ∃ ms m,
    trace (get_history bob ask true) w1
    = [Sql (Q_select_history "u-bob" "u-alice" None 50);
       Ack (P_history ms false C_null)]
    ∧ m ∈ ms
    ∧ senderId m = "u-alice" ∧ receiverId m = "u-bob"
    ∧ msg_content m = utf8 (trim (js " hi "))
    ∧ createdAt m = 1000%Z.
Proof.
  intros w w1 ask.
  apply (a_sent_message_is_in_the_receivers_history alice bob
           (offline "bob") (offline "alice") (js " hi ") "tmp-1" false None w).
  - reflexivity.
  - reflexivity.
  - reflexivity.
  - reflexivity.
  - vm_compute. lia.
  - vm_compute. lia.
  - apply (bool_decide_unpack _). vm_compute. exact I.
  - simpl. lia.
Defined.

(** ** Edits and deletes: what succeeds *)

Lemma filter_hit_nonempty (hit : message_row → bool) l r :
  r ∈ l → hit r = true → filter (fun x => hit x) l ≠ [].
Proof.
  intros Hr Hh Hnil.
  assert (Hin : r ∈ filter (fun x => hit x) l).
  { apply list_elem_of_filter. split; [by rewrite Hh|done]. }
  rewrite Hnil in Hin. by apply not_elem_of_nil in Hin.
Qed.

(** The run of a socket edit that matches a row, when the store answers
    and takes the text. *)
Lemma edit_message_run sk data w r :
  w_faults w = [] →
  0%N ∉ em_content data →
  r ∈ messages (w_db w) →
  row_id r = em_messageId data →
  sender_id r = userId sk →
  let hit x := bool_decide (row_id x = em_messageId data)
               && bool_decide (sender_id x = userId sk) in
  let notice := P_updated (em_messageId data) (em_content data) true
                  (userId sk) in
  edit_message sk data w
  = (Ok tt,
     set_db (with_messages
               (map (fun x => if hit x
                              then set_edited (w_now w)
                                     (utf8 (em_content data)) x
                              else x) (messages (w_db w))) (w_db w)) w,
     Sql (Q_update_content (utf8 (em_content data)) (em_messageId data)
            (userId sk))
       :: match connectedUsers w !! em_receiverId data with
          | Some s => [Emit s "message_updated" notice]
          | None => []
          end
       ++ [Emit (socket_id sk) "message_updated" notice]).
Proof.
  intros Hf Hz Hr Hid Hs hit notice.
  unfold edit_message, try_catch, bind. simpl.
  destruct (sql_update_content (w_now w) (em_content data)
              (em_messageId data) (userId sk) (w_db w))
    as [[rows d']|] eqn:Hrun.
  2: { unfold sql_update_content in Hrun.
       destruct (pg_text (em_content data)) eqn:Ht; [done|].
       by apply pg_text_None in Ht. }
  rewrite (query_text_ok _ _ _ rows d') by done.
  apply sql_update_content_Some in Hrun as [_ Hrun].
  unfold update_returning in Hrun. simplify_eq. simpl.
  match goal with
  | |- context [map _ (filter ?P ?l)] =>
      assert (Hne : filter P l ≠ []);
      [|destruct (filter P l) as [|x xs]; [done|]]
  end.
  { apply (filter_hit_nonempty hit _ r); [done|]. unfold hit.
    by rewrite !bool_decide_eq_true_2. }
  simpl.
  unfold registry_get. simpl.
  by destruct (connectedUsers w !! em_receiverId data).
Qed.

(** X16. The socket edit checks nothing about the content. When the store
    answers and takes the text (the content holds no U+0000), an
    [edit_message] by the sender of a stored message replaces its content
    by the content received as the store holds text: not trimmed, and
    accepted when empty, blank or longer than 5000 code units; an
    unpaired surrogate in it is held as U+FFFD. The row is marked edited
    at the current time; its original content, read state and deletion
    state are not touched. *)
Theorem socket_edit_stores_any_content sk data w i r :
  w_faults w = [] →
  0%N ∉ em_content data →
  messages (w_db w) !! i = Some r →
  row_id r = em_messageId data →
  sender_id r = userId sk →
  ∃ r',
    messages (w_db (final (edit_message sk data) w)) !! i = Some r'
    ∧ content r' = utf8 (em_content data)
    ∧ is_edited r' = true ∧ edited_at r' = Some (w_now w)
    ∧ original_content r' = original_content r
    ∧ (is_read r', read_at r') = (is_read r, read_at r)
    ∧ (is_deleted r', deleted_at r') = (is_deleted r, deleted_at r).
Proof.
  intros Hf Hz Hi Hid Hs.
  assert (Hr : r ∈ messages (w_db w)) by (by eapply list_elem_of_lookup_2).
  unfold final. rewrite (edit_message_run sk data w r) by done. simpl.
  rewrite list_lookup_fmap, Hi. simpl.
  rewrite !bool_decide_eq_true_2 by done. simpl.
  eexists. split; [done|]. by split_and!.
Qed.

Lemma socket_edit_stores_any_content_witness :
  let w := with_rows [m1] quiet in
  ∃ r',
    messages (w_db (final (edit_message alice (edit_to [])) w)) !! 0 = Some r'
    ∧ content r' = []
    ∧ is_edited r' = true ∧ edited_at r' = Some 1000%Z
    ∧ original_content r' = original_content m1
    ∧ (is_read r', read_at r') = (is_read m1, read_at m1)
    ∧ (is_deleted r', deleted_at r') = (is_deleted m1, deleted_at m1).
Proof.
  intros w.
  apply (socket_edit_stores_any_content alice (edit_to []) w 0 m1);
    try reflexivity.
  apply (bool_decide_unpack _). vm_compute. exact I.
Defined.

(** X17. The edit is announced to whoever the editor names. When the store
    answers and takes the text (the content holds no U+0000) and the edit
    matches a row of the editor, [message_updated] goes to the socket
    registered for the [receiverId] of the request, if any, and then to
    the editor, with the content as it was received; the receiver stored
    in the row is not consulted. *)
Theorem socket_edit_notifies_the_named_receiver sk data w r :
  w_faults w = [] →
  0%N ∉ em_content data →
  r ∈ messages (w_db w) →
  row_id r = em_messageId data →
  sender_id r = userId sk →
  let notice := P_updated (em_messageId data) (em_content data) true
                  (userId sk) in
  filter (fun e => is_event e = true) (trace (edit_message sk data) w)
  = match connectedUsers w !! em_receiverId data with
    | Some s => [Emit s "message_updated" notice]
    | None => []
    end
    ++ [Emit (socket_id sk) "message_updated" notice].
Proof.
  intros Hf Hz Hr Hid Hs notice.
  unfold trace. rewrite (edit_message_run sk data w r) by done. simpl.
  by destruct (connectedUsers w !! em_receiverId data).
Qed.

Lemma socket_edit_notifies_the_named_receiver_witness :
  let carol := {| socket_id := "s-carol"; userId := "u-carol";
                  user_username := "carol" |} in
  let w := with_rows [m1] (final (connect carol) quiet) in
  let data := {| em_messageId := "m1"; em_content := js "v2";
                 em_receiverId := "u-carol" |} in
  filter (fun e => is_event e = true) (trace (edit_message alice data) w)
  = [Emit "s-carol" "message_updated" (P_updated "m1" (js "v2") true "u-alice")]
    ++ [Emit "s-alice" "message_updated"
          (P_updated "m1" (js "v2") true "u-alice")].
Proof.
  intros carol w data.
  apply (socket_edit_notifies_the_named_receiver alice data w m1).
  - reflexivity.
  - apply (bool_decide_unpack _). vm_compute. exact I.
  - left.
  - reflexivity.
  - reflexivity.
Defined.

(** The lookup by id and the [WHERE id = $n] of the updates pick the same
    rows. *)
Lemma select_message_filter mid d :
  filter (fun r => bool_decide (row_id r = mid)) (messages d)
  = sql_select_message mid d.
Proof.
  unfold sql_select_message. apply list_filter_iff. intros r.
  split; [apply bool_decide_unpack|apply bool_decide_pack].
Qed.

(** The run of a REST edit that passes every check, when the store
    answers and takes the texts. *)
Lemma rest_edit_run user mid c r rest w :
  w_faults w = [] →
  blank (Some c) = false →
  sql_select_message mid (w_db w) = r :: rest →
  sender_id r = user →
  is_deleted r = false →
  0%N ∉ trim c →
  0%N ∉ content r →
  let f := set_edited_tracked (w_now w) (utf8 (trim c)) (utf8 (content r)) in
  rest_edit user mid (Some c) w
  = (Ok tt,
     set_db (with_messages
               (map (fun x => if bool_decide (row_id x = mid) then f x else x)
                  (messages (w_db w))) (w_db w)) w,
     [Sql (Q_select_message mid);
      Sql (Q_update_edit (utf8 (trim c)) (utf8 (content r)) mid);
      Respond 200
        (R_edited (row_id r) (sender_id r) (receiver_id r) (utf8 (trim c))
           (created_at r) (is_read r) true (Some (w_now w)))]).
Proof.
  intros Hf Hb Hsel Hs Hd Hz Hzr f. unfold rest_edit. rewrite Hb.
  unfold try_catch, bind. rewrite query_ok by done. simpl. rewrite Hsel.
  rewrite bool_decide_eq_false_2 by (intros ?; done). rewrite Hd. simpl.
  rewrite (query_text_ok _ _ _
             (map f (filter (fun x => bool_decide (row_id x = mid))
                       (messages (w_db w))))
             (with_messages
                (map (fun x => if bool_decide (row_id x = mid) then f x else x)
                   (messages (w_db w))) (w_db w))).
  - simpl. rewrite select_message_filter, Hsel. simpl. done.
  - done.
  - simpl. by apply sql_update_edit_Some.
Qed.

(** X18. A successful REST edit stores the trimmed content and keeps the
    first original. When the store answers and takes the text (the
    trimmed body holds no U+0000; the content of the row is text as the
    store holds it), and the caller is the sender of a message that is not
    deleted, [PUT /message/:messageId] with a non-blank content sets the
    content of the message to the trimmed body as the store holds text
    (an unpaired surrogate held as U+FFFD), marks it edited at the
    current time, records the previous content as original unless an
    original is already recorded, changes neither its read state nor any
    other message, and answers 200 with the content as stored. *)
Theorem rest_edit_trims_and_keeps_the_first_original user mid c r rest w :
  w_faults w = [] →
  blank (Some c) = false →
  sql_select_message mid (w_db w) = r :: rest →
  sender_id r = user →
  is_deleted r = false →
  0%N ∉ trim c →
  held r →
  let w' := final (rest_edit user mid (Some c)) w in
  (∀ i x, messages (w_db w) !! i = Some x →
     ∃ x',
       messages (w_db w') !! i = Some x'
       ∧ if bool_decide (row_id x = mid) then
           content x' = utf8 (trim c)
           ∧ is_edited x' = true ∧ edited_at x' = Some (w_now w)
           ∧ original_content x'
             = Some (default (content r) (original_content x))
           ∧ identity x' = identity x
           ∧ (is_read x', read_at x') = (is_read x, read_at x)
           ∧ (is_deleted x', deleted_at x') = (is_deleted x, deleted_at x)
         else x' = x)
  ∧ last (trace (rest_edit user mid (Some c)) w)
    = Some (Respond 200
              (R_edited mid user (receiver_id r) (utf8 (trim c))
                 (created_at r) (is_read r) true (Some (w_now w)))).
Proof.
  intros Hf Hb Hsel Hs Hd Hz Hzr w'. subst w'. unfold final, trace.
  apply pg_text_Some in Hzr as [Hzr Hur].
  rewrite (rest_edit_run user mid c r rest w) by done. simpl.
  rewrite <- Hur.
  assert (Hr : row_id r = mid).
  { assert (Hin : r ∈ sql_select_message mid (w_db w)) by (rewrite Hsel; left).
    unfold sql_select_message in Hin.
    by apply list_elem_of_filter in Hin as [? _]. }
  split.
  - intros i x Hi. rewrite list_lookup_fmap, Hi. simpl.
    eexists. split; [done|].
    destruct (bool_decide (row_id x = mid)); [|done]. simpl.
    split_and!; try done. by destruct (original_content x).
  - by rewrite Hr, Hs.
Qed.

Lemma rest_edit_trims_and_keeps_the_first_original_witness :
  let w := with_rows [m1; m2] quiet in
  let w' := final (rest_edit "u-alice" "m1" (Some (js " v2 "))) w in
  (∀ i x, messages (w_db w) !! i = Some x →
     ∃ x',
       messages (w_db w') !! i = Some x'
       ∧ if bool_decide (row_id x = "m1") then
           content x' = utf8 (trim (js " v2 "))
           ∧ is_edited x' = true ∧ edited_at x' = Some (w_now w)
           ∧ original_content x'
             = Some (default (content m1) (original_content x))
           ∧ identity x' = identity x
           ∧ (is_read x', read_at x') = (is_read x, read_at x)
           ∧ (is_deleted x', deleted_at x') = (is_deleted x, deleted_at x)
         else x' = x)
  ∧ last (trace (rest_edit "u-alice" "m1" (Some (js " v2 "))) w)
    = Some (Respond 200
              (R_edited "m1" "u-alice" (receiver_id m1)
                 (utf8 (trim (js " v2 "))) (created_at m1) (is_read m1) true
                 (Some (w_now w)))).
Proof.
  intros w.
  apply (rest_edit_trims_and_keeps_the_first_original "u-alice" "m1"
           (js " v2 ") m1 [] w); try reflexivity.
  apply (bool_decide_unpack _). vm_compute. exact I.
Defined.

Lemma rest_delete_run user mid r rest w :
  w_faults w = [] →
  sql_select_message mid (w_db w) = r :: rest →
  sender_id r = user →
  rest_delete user mid w
  = (Ok tt,
     set_db (sql_soft_delete (w_now w) mid (w_db w)) w,
     [Sql (Q_select_message mid); Sql (Q_soft_delete mid);
      Respond 200 (R_status true "Message deleted")]).
Proof.
  intros Hf Hsel Hs. unfold rest_delete, try_catch, bind.
  rewrite query_ok by done. simpl. rewrite Hsel.
  rewrite bool_decide_eq_false_2 by (intros ?; done). simpl.
  by rewrite query_ok.
Qed.

(** A statement that rewrites rows without changing ids commutes with the
    lookup by id. *)
Lemma select_message_map (g : message_row → message_row) mid d :
  (∀ x, row_id (g x) = row_id x) →
  sql_select_message mid (with_messages (map g (messages d)) d)
  = map g (sql_select_message mid d).
Proof.
  intros Hg. unfold sql_select_message. simpl.
  induction (messages d) as [|x l IH]; [done|]. simpl.
  rewrite !filter_cons, Hg. case_decide; simpl; by rewrite IH.
Qed.

(** X19. The REST delete is a soft delete, and it closes the message to REST
    edits. When the store answers and the caller is the sender,
    [DELETE /message/:messageId] keeps the row and every other row,
    replaces the content by the tombstone, sets the deleted flag and
    stamps [deleted_at] with the current time (again, if the message was
    deleted before), keeps the identity, read state, edit state and
    recorded original, and answers 200. A REST edit of the message by the
    sender is then refused with 400 and writes nothing. *)
Theorem rest_delete_is_soft_and_closes_rest_edits user mid r rest c w :
  w_faults w = [] →
  sql_select_message mid (w_db w) = r :: rest →
  sender_id r = user →
  blank (Some c) = false →
  let w' := final (rest_delete user mid) w in
  (∀ i x, messages (w_db w) !! i = Some x →
     ∃ x',
       messages (w_db w') !! i = Some x'
       ∧ if bool_decide (row_id x = mid) then
           content x' = tombstone
           ∧ is_deleted x' = true ∧ deleted_at x' = Some (w_now w)
           ∧ identity x' = identity x
           ∧ (is_read x', read_at x') = (is_read x, read_at x)
           ∧ (is_edited x', edited_at x', original_content x')
             = (is_edited x, edited_at x, original_content x)
         else x' = x)
  ∧ length (messages (w_db w')) = length (messages (w_db w))
  ∧ last (trace (rest_delete user mid) w)
    = Some (Respond 200 (R_status true "Message deleted"))
  ∧ final (rest_edit user mid (Some c)) w' = w'
  ∧ last (trace (rest_edit user mid (Some c)) w')
    = Some (Respond 400 (R_status false "Cannot edit a deleted message")).
Proof.
  intros Hf Hsel Hs Hb w'.
  assert (Hw' : w' = set_db (sql_soft_delete (w_now w) mid (w_db w)) w).
  { subst w'. unfold final. by rewrite (rest_delete_run user mid r rest w). }
  assert (Hsel' : sql_select_message mid (w_db w')
                  = set_deleted (w_now w) r
                      :: map (set_deleted (w_now w)) rest).
  { rewrite Hw'. simpl. unfold sql_soft_delete.
    rewrite (select_message_map
               (fun x => if bool_decide (row_id x = mid)
                         then set_deleted (w_now w) x else x)).
    2: { intros x. by destruct (bool_decide (row_id x = mid)). }
    rewrite Hsel. simpl.
    assert (Hall : ∀ x, x ∈ r :: rest → row_id x = mid).
    { intros x Hx. rewrite <- Hsel in Hx. unfold sql_select_message in Hx.
      by apply list_elem_of_filter in Hx as [? _]. }
    rewrite bool_decide_eq_true_2 by (apply Hall; left). f_equal.
    apply list_fmap_ext. intros i x Hx. simpl.
    rewrite bool_decide_eq_true_2; [done|].
    apply Hall. right. by eapply list_elem_of_lookup_2. }
  destruct (rest_edit_deleted_rejected user mid c (set_deleted (w_now w) r)
              (map (set_deleted (w_now w)) rest) w') as [Hfin Htr];
    try done.
  { by rewrite Hw'. }
  split_and!.
  - intros i x Hi. rewrite Hw'. simpl. rewrite list_lookup_fmap, Hi. simpl.
    eexists. split; [done|].
    destruct (bool_decide (row_id x = mid)); [|done]. by split_and!.
  - rewrite Hw'. simpl. by rewrite length_fmap.
  - unfold trace. by rewrite (rest_delete_run user mid r rest w).
  - done.
  - by rewrite Htr.
Qed.

Lemma rest_delete_is_soft_and_closes_rest_edits_witness :
  let w := with_rows [m1; m2] quiet in
  let w' := final (rest_delete "u-alice" "m1") w in
  length (messages (w_db w')) = length (messages (w_db w))
  ∧ final (rest_edit "u-alice" "m1" (Some (js "v2"))) w' = w'.
Proof.
  intros w w'.
  destruct (rest_delete_is_soft_and_closes_rest_edits "u-alice" "m1" m1 []
              (js "v2") w) as (_ & Hlen & _ & Hfin & _).
  - reflexivity.
  - reflexivity.
  - reflexivity.
  - reflexivity.
  - split; [exact Hlen|exact Hfin].
Defined.

(** X20. Mutating a message that does not exist. When the store answers and
    no stored message has the id, the REST delete and the REST edit with
    a non-blank content answer 404 "Message not found", the socket edit
    answers nothing (it runs its [UPDATE], unless the store refuses the
    content for a U+0000 in it), and none of them writes. *)
Theorem mutating_a_missing_message_writes_nothing sk mid c receiver w :
  w_faults w = [] →
  (∀ r, r ∈ messages (w_db w) → row_id r ≠ mid) →
  blank (Some c) = false →
  let data := {| em_messageId := mid; em_content := c;
                 em_receiverId := receiver |} in
  (final (rest_delete (userId sk) mid) w = w
   ∧ trace (rest_delete (userId sk) mid) w
     = [Sql (Q_select_message mid);
        Respond 404 (R_status false "Message not found")])
  ∧ (final (rest_edit (userId sk) mid (Some c)) w = w
     ∧ trace (rest_edit (userId sk) mid (Some c)) w
       = [Sql (Q_select_message mid);
          Respond 404 (R_status false "Message not found")])
  ∧ (final (edit_message sk data) w = w
     ∧ trace (edit_message sk data) w
       = match pg_text c with
         | Some stored => [Sql (Q_update_content stored mid (userId sk))]
         | None => []
         end).
Proof.
  intros Hf Hno Hb data.
  assert (Hsel : sql_select_message mid (w_db w) = []).
  { unfold sql_select_message.
    destruct (filter _ (messages (w_db w))) as [|x l] eqn:Hx; [done|].
    assert (Hin : x ∈ filter (fun r => row_id r = mid) (messages (w_db w)))
      by (rewrite Hx; left).
    apply list_elem_of_filter in Hin as [Hid Hin]. by destruct (Hno x Hin). }
  assert (Hupd : ∀ stored,
            update_returning
              (fun r => bool_decide (row_id r = mid)
                        && bool_decide (sender_id r = userId sk))
              (set_edited (w_now w) stored) (w_db w) = ([], w_db w)).
  { intros stored. apply update_returning_no_hit. intros r Hr.
    apply andb_false_iff. left. apply bool_decide_eq_false_2. by apply Hno. }
  split_and!.
  - unfold final, rest_delete, try_catch, bind.
    rewrite query_ok by done. simpl. rewrite Hsel. simpl. apply set_db_same.
  - unfold trace, rest_delete, try_catch, bind.
    rewrite query_ok by done. simpl. by rewrite Hsel.
  - unfold final, rest_edit. rewrite Hb. unfold try_catch, bind.
    rewrite query_ok by done. simpl. rewrite Hsel. simpl. apply set_db_same.
  - unfold trace, rest_edit. rewrite Hb. unfold try_catch, bind.
    rewrite query_ok by done. simpl. by rewrite Hsel.
  - unfold final, edit_message, try_catch, bind. simpl.
    destruct (pg_text c) as [stored|] eqn:Ht.
    + rewrite (query_text_ok _ _ _ [] (w_db w));
        [simpl; apply set_db_same|done|].
      unfold sql_update_content. by rewrite Ht, Hupd.
    + rewrite query_text_refused; [done|done|].
      unfold sql_update_content. by rewrite Ht.
  - unfold trace, edit_message, try_catch, bind. simpl.
    destruct (pg_text c) as [stored|] eqn:Ht.
    + rewrite (query_text_ok _ _ _ [] (w_db w)); [|done|].
      * simpl. by apply pg_text_Some in Ht as [_ ->].
      * unfold sql_update_content. by rewrite Ht, Hupd.
    + rewrite query_text_refused; [done|done|].
      unfold sql_update_content. by rewrite Ht.
Qed.

Lemma mutating_a_missing_message_writes_nothing_witness :
  let w := with_rows [m1] quiet in
  final (rest_delete "u-alice" "m9") w = w
  ∧ final (rest_edit "u-alice" "m9" (Some (js "v2"))) w = w
  ∧ final (edit_message alice
             {| em_messageId := "m9"; em_content := js "v2";
                em_receiverId := "u-bob" |}) w = w.
Proof.
  intros w.
  destruct (mutating_a_missing_message_writes_nothing alice "m9" (js "v2")
              "u-bob" w) as ((Hd & _) & (He & _) & (Hs & _)).
  - reflexivity.
  - intros r Hr. apply list_elem_of_singleton in Hr. subst r. discriminate.
  - reflexivity.
  - split_and!; [exact Hd|exact He|exact Hs].
Defined.

(** ** Connections and presence *)

(** X21. The last registration wins and a stale disconnect evicts it. When a
    user connects with a first socket and then with a second one, the
    registry names the second; when the first socket then disconnects,
    the user is no longer in the registry although the second socket is
    still connected. *)
Theorem a_stale_disconnect_evicts_the_newer_connection sk1 sk2 later w :
  userId sk1 = userId sk2 →
  socket_id sk1 ≠ socket_id sk2 →
  let w1 := final (connect sk1) w in
  let w2 := final (connect sk2) w1 in
  let w3 := final (disconnect sk1 later) w2 in
  getUserSocketId (userId sk1) w1 = Some (socket_id sk1)
  ∧ getUserSocketId (userId sk1) w2 = Some (socket_id sk2)
  ∧ isUserOnline (userId sk2) w3 = false
  ∧ io_sockets w3 !! socket_id sk2 = Some (userId sk2).
Proof.
  intros Hu Hs w1 w2 w3. subst w1 w2 w3. unfold getUserSocketId, isUserOnline.
  destruct (disconnect_registry sk1 later
              (final (connect sk2) (final (connect sk1) w)))
    as [Hc Hi]. rewrite Hc, Hi.
  unfold final. rewrite !connect_run. simpl. split_and!.
  - by rewrite lookup_insert_eq.
  - by rewrite Hu, lookup_insert_eq.
  - rewrite Hu, lookup_delete_eq. apply bool_decide_eq_false_2.
    by intros [? ?].
  - rewrite lookup_delete_ne by done. by rewrite lookup_insert_eq.
Qed.

Lemma a_stale_disconnect_evicts_the_newer_connection_witness :
  let phone := {| socket_id := "s-phone"; userId := "u-alice";
                  user_username := "alice" |} in
  let w3 := final (disconnect alice 1500)
              (final (connect phone) (final (connect alice) quiet)) in
  isUserOnline "u-alice" w3 = false
  ∧ io_sockets w3 !! "s-phone" = Some "u-alice".
Proof.
  intros phone w3.
  destruct (a_stale_disconnect_evicts_the_newer_connection alice phone 1500
              quiet) as (_ & _ & Hoff & Hlive).
  - reflexivity.
  - discriminate.
  - split; [exact Hoff|exact Hlive].
Defined.

(** X22. A disconnect always unregisters and always announces. Whatever the
    store does, the disconnect handler removes the user from the
    registry and ends with the [user_offline] broadcast, which carries
    the server's clock as read after the awaited [UPDATE]. When the store
    answers, the user's row is set offline with the store's own time of
    the [UPDATE] as last-seen, which need not be the time in the
    broadcast; when the store throws, the store is left as it was. *)
Theorem disconnect_always_unregisters_and_announces sk later w :
  let w' := final (disconnect sk later) w in
  isUserOnline (userId sk) w' = false
  ∧ last (trace (disconnect sk later) w)
    = Some (Broadcast (socket_id sk) "user_offline"
              (P_user_offline (userId sk) (user_username sk) later))
  ∧ (head (w_faults w) ≠ Some true →
       ∀ u, users (w_db w) !! userId sk = Some u →
            users (w_db w') !! userId sk
            = Some {| username := username u; is_online := false;
                      last_seen := Some (w_now w) |})
  ∧ (head (w_faults w) = Some true → w_db w' = w_db w).
Proof.
  intros w'. subst w'. unfold isUserOnline.
  destruct (disconnect_registry sk later w) as [Hc _]. rewrite Hc.
  unfold final, trace, disconnect, on_disconnect, bind, try_catch, query.
  simpl. split_and!.
  - rewrite lookup_delete_eq. apply bool_decide_eq_false_2. by intros [? ?].
  - by destruct (w_faults w) as [|[] fs].
  - intros Hok u Hu. destruct (w_faults w) as [|[] fs]; simpl in *;
      try done; by rewrite lookup_alter_eq, Hu.
  - intros Hbad. by destruct (w_faults w) as [|[] fs]; simplify_eq/=.
Qed.

Lemma disconnect_always_unregisters_and_announces_witness :
  let w' := final (disconnect bob 1003) quiet in
  isUserOnline "u-bob" w' = false
  ∧ last (trace (disconnect bob 1003) quiet)
    = Some (Broadcast "s-bob" "user_offline"
              (P_user_offline "u-bob" "bob" 1003))
  ∧ users (w_db w') !! "u-bob"
    = Some {| username := "bob"; is_online := false;
              last_seen := Some 1000%Z |}.
Proof.
  intros w'.
  destruct (disconnect_always_unregisters_and_announces bob 1003 quiet)
    as (Hoff & Hlast & Hrow & _).
  split_and!; [exact Hoff|exact Hlast|].
  apply (Hrow ltac:(discriminate) (offline "bob")).
  reflexivity.
Defined.

(** X23. The status query reads the store, not the registry. After a
    disconnect whose store update succeeded, [get_user_status] reports
    the user offline with the store's time of that update as last-seen.
    After a disconnect whose store update threw, the user is out of the
    registry but the query still reports the presence columns as they
    were before the disconnect. *)
Theorem status_follows_the_store_not_the_registry sk later u w :
  users (w_db w) !! userId sk = Some u →
  userId sk ≠ "" →
  let w' := final (disconnect sk later) w in
  let status := result (get_user_status (Some (userId sk)) true) w' in
  isUserOnline (userId sk) w' = false
  ∧ (w_faults w = [] →
       status = Some (Some {| ui_id := userId sk; ui_username := username u;
                              ui_isOnline := false;
                              ui_lastSeen := Some (w_now w) |}))
  ∧ (w_faults w = [true] →
       status = Some (Some {| ui_id := userId sk; ui_username := username u;
                              ui_isOnline := is_online u;
                              ui_lastSeen := last_seen u |})).
Proof.
  intros Hu Hne w' status. subst status w'. split_and!.
  - unfold isUserOnline. destruct (disconnect_registry sk later w) as [Hc _].
    rewrite Hc, lookup_delete_eq. apply bool_decide_eq_false_2.
    by intros [? ?].
  - intros Hf. unfold result, final, get_user_status, disconnect,
      on_disconnect, bind, try_catch, query. simpl.
    rewrite bool_decide_eq_false_2 by done. rewrite Hf. simpl.
    unfold sql_select_user. simpl. by rewrite lookup_alter_eq, Hu.
  - intros Hf. unfold result, final, get_user_status, disconnect,
      on_disconnect, bind, try_catch, query. simpl.
    rewrite bool_decide_eq_false_2 by done. rewrite Hf. simpl.
    unfold sql_select_user. simpl. by rewrite Hu.
Qed.

Lemma status_follows_the_store_not_the_registry_witness :
  let online_bob := {| username := "bob"; is_online := true;
                       last_seen := None |} in
  let w := set_faults [true]
             (set_db (with_users (<["u-bob" := online_bob]> two_users)
                        (w_db quiet)) quiet) in
  let w' := final (disconnect bob 1500) w in
  isUserOnline "u-bob" w' = false
  ∧ result (get_user_status (Some "u-bob") true) w'
    = Some (Some {| ui_id := "u-bob"; ui_username := "bob";
                    ui_isOnline := true; ui_lastSeen := None |}).
Proof.
  intros online_bob w w'.
  destruct (status_follows_the_store_not_the_registry bob 1500 online_bob w)
    as (Hoff & _ & Hstale).
  - reflexivity.
  - discriminate.
  - split; [exact Hoff|]. apply Hstale. reflexivity.
Defined.

(** X24. In every state reached from a server without connections by
    connects of sockets with fresh ids and disconnects of connected
    sockets, whatever the clock and the store's faults do in between,
    the socket the registry names for a user is a connected socket that
    authenticated as that user. *)
Theorem registry_names_connected_sockets_of_the_user w w' u s :
  initial w →
  rtc server_step w w' →
  getUserSocketId u w' = Some s →
  io_sockets w' !! s = Some u.
Proof.
  intros [Hc Hi] Hrun. unfold getUserSocketId.
  assert (Hlive : registry_live w).
  { intros u' s' Hu'. rewrite Hc in Hu'. by rewrite lookup_empty in Hu'. }
  clear Hc Hi. revert u s.
  induction Hrun as [w|w w1 w2 Hstep _ IH]; [exact Hlive|].
  apply IH. by eapply registry_live_step.
Qed.

Lemma registry_names_connected_sockets_of_the_user_witness :
  let w := set_io_sockets ∅ (set_connectedUsers ∅ quiet) in
  let w' := final (connect bob) (final (connect alice) w) in
  io_sockets w' !! "s-bob" = Some "u-bob".
Proof.
  intros w w'.
  apply (registry_names_connected_sockets_of_the_user w w' "u-bob" "s-bob").
  - split; reflexivity.
  - eapply rtc_l; [apply (step_connect w alice); reflexivity|].
    eapply rtc_l;
      [apply (step_connect (final (connect alice) w) bob); reflexivity|].
    apply rtc_refl.
  - reflexivity.
Defined.

(** ** Read receipts: who may mark *)

(** X25. Only the receiver can mark a message read. Whatever the id list, the
    named sender and the store's faults, a [mark_read] over the socket
    or [PUT /read] over REST leaves every message that is not addressed
    to the caller exactly as it was. *)
Theorem only_the_receiver_can_mark_read sk data ids w i r :
  messages (w_db w) !! i = Some r →
  receiver_id r ≠ userId sk →
  messages (w_db (final (mark_read sk data) w)) !! i = Some r
  ∧ messages (w_db (final (rest_mark_read (userId sk) ids) w)) !! i = Some r.
Proof.
  intros Hi Hne.
  assert (Hkeep : ∀ t l,
    messages (sql_mark_read t l (userId sk) (w_db w)) !! i = Some r).
  { intros t l. rewrite (sql_mark_read_lookup t l (userId sk) (w_db w) i r)
      by done.
    destruct (read_target l (userId sk) r) eqn:Ht; [|done].
    apply read_target_spec in Ht as (_ & Ht & _). done. }
  split.
  - unfold mark_read.
    destruct (mr_messageIds data) as [[|??]|], (mr_senderId data);
      run_handler; try done; apply Hkeep.
  - unfold rest_mark_read. destruct ids as [[|??]|]; run_handler;
      try done; apply Hkeep.
Qed.

Lemma only_the_receiver_can_mark_read_witness :
  let w := with_rows [m1] quiet in
  let data := {| mr_messageIds := Some ["m1"]; mr_senderId := Some "u-bob" |} in
  messages (w_db (final (mark_read alice data) w)) !! 0 = Some m1
  ∧ messages (w_db (final (rest_mark_read "u-alice" (Some ["m1"])) w)) !! 0
    = Some m1.
Proof.
  intros w data.
  apply (only_the_receiver_can_mark_read alice data (Some ["m1"]) w 0 m1).
  - reflexivity.
  - discriminate.
Defined.

(** ** Presence queries: the refusals *)

(** X26. [get_user_status] refuses without writing. A request that names no
    user id is answered "User ID is required" before any statement runs;
    when the store answers, a request for an id that is not in [users]
    is answered "User not found"; when the store throws, the answer is
    "Failed to fetch user status". In each case the world is as it was,
    apart from the consumed fault, and no status is handed over. *)
Theorem status_query_refusals uid callback w :
  let q := get_user_status uid callback in
  let refused msg := if callback then [Ack (P_failure msg)] else [] in
  (uid = None ∨ uid = Some "" →
     trace q w = refused "User ID is required"
     ∧ final q w = w ∧ result q w = Some None)
  ∧ (∀ id, uid = Some id → id ≠ "" →
       w_faults w = [] → users (w_db w) !! id = None →
       trace q w = Sql (Q_select_user id) :: refused "User not found"
       ∧ final q w = w ∧ result q w = Some None)
  ∧ (∀ id fs, uid = Some id → id ≠ "" →
       w_faults w = true :: fs →
       trace q w = refused "Failed to fetch user status"
       ∧ w_db (final q w) = w_db w ∧ result q w = Some None).
Proof.
  intros q refused. subst q refused. split_and!.
  - intros [->| ->]; unfold trace, final, result, get_user_status; simpl;
      by destruct callback.
  - intros id -> Hne Hf Hu.
    unfold trace, final, result, get_user_status.
    rewrite bool_decide_eq_false_2 by done.
    unfold try_catch, bind. rewrite query_ok by done. simpl.
    unfold sql_select_user. rewrite Hu. simpl.
    rewrite set_db_same. by destruct callback.
  - intros id fs -> Hne Hf.
    unfold trace, final, result, get_user_status.
    rewrite bool_decide_eq_false_2 by done.
    unfold try_catch, bind, query. rewrite Hf. simpl. by destruct callback.
Qed.

Lemma status_query_refusals_witness :
  trace (get_user_status (Some "u-carol") true) quiet
  = [Sql (Q_select_user "u-carol"); Ack (P_failure "User not found")]
  ∧ final (get_user_status (Some "u-carol") true) quiet = quiet.
Proof.
  destruct (status_query_refusals (Some "u-carol") true quiet)
    as (_ & Hunknown & _).
  destruct (Hunknown "u-carol" eq_refl ltac:(discriminate) eq_refl eq_refl)
    as (Htr & Hfin & _).
  split; [exact Htr|exact Hfin].
Defined.

(** ** History: the last page *)

(** X27. A full last page announces more, and the page after it is empty.
    When the store answers and the conversation holds exactly [L]
    messages that the query can return, for a limit [L] of at least 1,
    [get_history] with limit [L] returns them all with [hasMore] true and
    a cursor; the request that follows that cursor returns no message,
    with [hasMore] false and no cursor. *)
Theorem a_full_last_page_announces_more sk partner L w :
  w_faults w = [] →
  partner ≠ "" →
  0 < L →
  length (sql_select_history (userId sk) partner None (S L) (w_db w)) = L →
  ∃ ms t,
    trace (get_history sk {| gh_partnerId := Some partner;
                             gh_limit := Some L; gh_before := None |} true) w
    = [Sql (Q_select_history (userId sk) partner None L);
       Ack (P_history ms true (C_at t))]
    ∧ length ms = L
    ∧ trace (get_history sk {| gh_partnerId := Some partner;
                               gh_limit := Some L; gh_before := Some t |}
               true) w
      = [Sql (Q_select_history (userId sk) partner (Some t) L);
         Ack (P_history [] false C_null)].
Proof.
  intros Hf Hp HL Hlen.
  set (me := userId sk) in *.
  set (all := merge_sort newer_first
                (omap (join_sender (w_db w))
                   (filter (fun r => in_conversation me partner r
                                     && before_cursor None r)
                      (messages (w_db w))))).
  assert (Hall : length all = L).
  { unfold sql_select_history in Hlen. fold all in Hlen.
    rewrite length_take in Hlen. lia. }
  assert (HS : sql_select_history me partner None (S L) (w_db w) = all).
  { unfold sql_select_history. fold all. apply take_ge. lia. }
  assert (H1 : sql_select_history me partner None L (w_db w) = all).
  { unfold sql_select_history. fold all. apply take_ge. lia. }
  destruct (last all) as [h|] eqn:Hlast.
  2: { apply last_None in Hlast. rewrite Hlast in Hall. simpl in Hall. lia. }
  set (t := created_at (h_msg h)).
  assert (H2 : sql_select_history me partner (Some t) L (w_db w) = []).
  { destruct (sql_select_history me partner (Some t) L (w_db w))
      as [|h2 l2] eqn:Hrows; [done|exfalso].
    assert (Hin : h2 ∈ sql_select_history me partner (Some t) L (w_db w))
      by (rewrite Hrows; left).
    pose proof (sql_select_history_row _ _ _ _ _ _ Hin)
      as (Hr & Hconv & Hbef & u & Hu & Hn).
    assert (Hin' : h2 ∈ sql_select_history me partner None (S L) (w_db w)).
    { rewrite HS. unfold all. rewrite merge_sort_Permutation.
      apply list_elem_of_omap. exists (h_msg h2). split.
      - apply list_elem_of_filter. split; [|done].
        apply andb_prop_intro. split; [|done].
        unfold in_conversation. apply orb_prop_intro.
        destruct Hconv as [[Ha Hb]|[Ha Hb]]; [left|right];
          apply andb_prop_intro; split; by apply bool_decide_pack.
      - unfold join_sender. rewrite Hu. simpl.
        destruct h2 as [r2 n2]. simpl in *. by subst n2. }
    assert (Hlast' : last (sql_select_history me partner None (S L) (w_db w))
                     = Some h) by (by rewrite HS).
    pose proof (last_row_is_oldest _ _ _ _ _ _ _ Hlast' Hin') as Hle.
    specialize (Hbef t eq_refl). subst t. lia. }
  exists (reverse (map message_of_history all)), t. split_and!.
  - rewrite get_history_run by done. simpl. fold me. rewrite H1.
    rewrite bool_decide_eq_true_2 by done. unfold next_cursor.
    by rewrite Hlast.
  - by rewrite length_reverse, length_map.
  - rewrite get_history_run by done. simpl. fold me. rewrite H2. simpl.
    rewrite bool_decide_eq_false_2 by lia. done.
Qed.

Lemma a_full_last_page_announces_more_witness :
  let w := with_rows [m1; m2] quiet in
  ∃ ms t,
    trace (get_history bob {| gh_partnerId := Some "u-alice";
                              gh_limit := Some 2; gh_before := None |} true) w
    = [Sql (Q_select_history "u-bob" "u-alice" None 2);
       Ack (P_history ms true (C_at t))]
    ∧ length ms = 2
    ∧ trace (get_history bob {| gh_partnerId := Some "u-alice";
                                gh_limit := Some 2; gh_before := Some t |}
               true) w
      = [Sql (Q_select_history "u-bob" "u-alice" (Some t) 2);
         Ack (P_history [] false C_null)].
Proof.
  intros w.
  apply (a_full_last_page_announces_more bob "u-alice" 2 w).
  - reflexivity.
  - discriminate.
  - lia.
  - reflexivity.
Defined.

(** ** The conversation list and the unread counts *)

Lemma unread_count_app me p d rows :
  unread_count me p (with_messages (messages d ++ rows) d)
  = unread_count me p d
    + length (filter (fun r => receiver_id r = me ∧ is_read r = false
                               ∧ sender_id r = p) rows).
Proof. unfold unread_count. simpl. by rewrite filter_app, length_app. Qed.

(** X28. A stored message opens the conversation on both sides and counts as
    unread for its receiver. After a valid [send_message] that the store
    accepted (it answers, and the trimmed content holds no U+0000), each
    of the two users is a conversation partner of the other, the
    receiver's unread count for the sender has grown by one, and no other
    unread count has changed. *)
Theorem a_sent_message_counts_as_unread sk rid ru c tempId callback w :
  w_faults w = [] →
  store_wf (w_db w) →
  users (w_db w) !! rid = Some ru →
  0 < length (trim c) →
  length c ≤ 5000 →
  0%N ∉ trim c →
  let data := {| sm_receiverId := Some rid; sm_content := Some c;
                 sm_tempId := tempId |} in
  let d' := w_db (final (send_message sk data callback) w) in
  rid ∈ conversation_partners (userId sk) d'
  ∧ userId sk ∈ conversation_partners rid d'
  ∧ unread_count rid (userId sk) d' = S (unread_count rid (userId sk) (w_db w))
  ∧ ∀ me p, (me, p) ≠ (rid, userId sk) →
            unread_count me p d' = unread_count me p (w_db w).
Proof.
  intros Hf Hwf Hu Hlo Hhi Hz data d'.
  assert (Hrid : rid ≠ "").
  { intros ->. unfold store_wf in Hwf. congruence. }
  pose proof (send_message_run sk rid ru c tempId callback w
                Hf Hu Hrid Hlo Hhi Hz) as Hrun.
  simpl in Hrun. subst d' data. unfold final. rewrite Hrun. simpl.
  set (row := new_row (w_uuid w) (w_now w) (userId sk) rid (utf8 (trim c))).
  split_and!.
  - unfold conversation_partners. simpl. apply elem_of_list_to_set.
    apply list_elem_of_fmap. exists row. split.
    + unfold partner_of. simpl. by rewrite bool_decide_eq_true_2.
    + apply list_elem_of_filter. split; [by left|set_solver].
  - unfold conversation_partners. simpl. apply elem_of_list_to_set.
    apply list_elem_of_fmap. exists row. split.
    + unfold partner_of. simpl. case_bool_decide; [by subst|done].
    + apply list_elem_of_filter. split; [by right|set_solver].
  - rewrite unread_count_app. rewrite filter_cons_True by done. simpl. lia.
  - intros me p Hne. rewrite unread_count_app.
    rewrite filter_cons_False; [simpl; lia|].
    simpl. intros (<- & _ & <-). done.
Qed.

Lemma a_sent_message_counts_as_unread_witness :
  let d' := w_db (final (send_message alice hello true) quiet) in
  "u-bob" ∈ conversation_partners "u-alice" d'
  ∧ "u-alice" ∈ conversation_partners "u-bob" d'
  ∧ unread_count "u-bob" "u-alice" d'
    = S (unread_count "u-bob" "u-alice" (w_db quiet))
  ∧ ∀ me p, (me, p) ≠ ("u-bob", "u-alice") →
            unread_count me p d' = unread_count me p (w_db quiet).
Proof.
  apply (a_sent_message_counts_as_unread alice "u-bob" (offline "bob")
           (js " hi ") "tmp-1" true quiet).
  - reflexivity.
  - reflexivity.
  - reflexivity.
  - vm_compute. lia.
  - vm_compute. lia.
  - apply (bool_decide_unpack _). vm_compute. exact I.
Defined.

(** X29. Marking everything read clears the count. When the store answers
    and the id list of a [mark_read] holds the id of every unread message
    a partner sent to the caller, the caller's unread count for that
    partner is 0 afterwards, and no unread count of anyone has grown. *)
Theorem marking_all_read_clears_the_unread_count sk data ids p w :
  w_faults w = [] →
  mr_messageIds data = Some ids →
  (∀ r, r ∈ messages (w_db w) → receiver_id r = userId sk →
        sender_id r = p → is_read r = false → row_id r ∈ ids) →
  let d' := w_db (final (mark_read sk data) w) in
  unread_count (userId sk) p d' = 0
  ∧ ∀ me q, unread_count me q d' ≤ unread_count me q (w_db w).
Proof.
  intros Hf Hids Hcover d'.
  assert (Hd' : d' = w_db w ∨ d' = sql_mark_read (w_now w) ids (userId sk)
                                      (w_db w)).
  { subst d'. destruct ids as [|id ids'].
    - left. unfold final, mark_read. by rewrite Hids.
    - right. destruct data as [mi ms]. simpl in Hids. subst mi.
      by rewrite mark_read_final. }
  assert (Hmono : ∀ me q l,
    length (filter (fun r => receiver_id r = me ∧ is_read r = false
                             ∧ sender_id r = q)
              (map (fun r => if read_target ids (userId sk) r
                             then set_read (w_now w) r else r) l))
    ≤ length (filter (fun r => receiver_id r = me ∧ is_read r = false
                               ∧ sender_id r = q) l)).
  { intros me q l. induction l as [|r l IH]; [done|]. simpl.
    rewrite !filter_cons.
    destruct (read_target ids (userId sk) r) eqn:Ht.
    - rewrite decide_False by (simpl; intros (_ & ? & _); done).
      case_decide; simpl; lia.
    - case_decide; simpl; lia. }
  split.
  - assert (Hnone : ∀ l,
      (∀ r, r ∈ l → receiver_id r = userId sk → sender_id r = p →
            is_read r = false → row_id r ∈ ids) →
      filter (fun r => receiver_id r = userId sk ∧ is_read r = false
                       ∧ sender_id r = p)
        (map (fun r => if read_target ids (userId sk) r
                       then set_read (w_now w) r else r) l) = []).
    { induction l as [|r l IH]; intros Hl; [done|]. simpl.
      rewrite filter_cons, IH by (intros; apply Hl; [by right|done..]).
      destruct (read_target ids (userId sk) r) eqn:Ht.
      - rewrite decide_False; [done|]. simpl. intros (_ & ? & _). done.
      - rewrite decide_False; [done|]. intros (Hr & Hu & Hs).
        assert (read_target ids (userId sk) r = true); [|congruence].
        apply read_target_spec. split_and!; try done.
        apply Hl; [left|done..]. }
    destruct Hd' as [Hd'|Hd']; rewrite Hd'.
    + destruct ids as [|id ids'].
      * unfold unread_count.
        destruct (filter _ (messages (w_db w))) as [|r l] eqn:Hfl; [done|].
        assert (Hin : r ∈ filter (fun r => receiver_id r = userId sk
                                   ∧ is_read r = false ∧ sender_id r = p)
                          (messages (w_db w))) by (rewrite Hfl; left).
        apply list_elem_of_filter in Hin as [(Hr & Hu & Hs) Hin].
        specialize (Hcover r Hin Hr Hs Hu). by apply not_elem_of_nil in Hcover.
      * subst d'. destruct data as [mi ms]. simpl in Hids. subst mi.
        rewrite mark_read_final in Hd' by done.
        unfold unread_count. rewrite <- Hd'. simpl. by rewrite Hnone.
    + unfold unread_count. simpl. by rewrite Hnone.
  - intros me q. destruct Hd' as [Hd'|Hd']; rewrite Hd'; [done|].
    unfold unread_count. simpl. apply Hmono.
Qed.

Lemma marking_all_read_clears_the_unread_count_witness :
  let w := with_rows [m1] quiet in
  let data := {| mr_messageIds := Some ["m1"]; mr_senderId := None |} in
  unread_count "u-bob" "u-alice" (w_db w) = 1
  ∧ unread_count "u-bob" "u-alice" (w_db (final (mark_read bob data) w)) = 0.
Proof.
  intros w data.
  destruct (marking_all_read_clears_the_unread_count bob data ["m1"]
              "u-alice" w) as [Hzero _].
  - reflexivity.
  - reflexivity.
  - intros r Hr _ _ _. apply list_elem_of_singleton in Hr. subst r. left.
  - split; [reflexivity|exact Hzero].
Defined.

(** Requests other than sending and marking read rewrite rows, if at
    all, without touching sender, receiver or read flag. *)
Lemma handle_keeps_envelopes r w :
  match r with
  | Send_message _ _ _ | Rest_send _ _ _ _ | Mark_read _ _
  | Rest_mark_read _ _ => True
  | _ =>
      envelope <$> messages (w_db (handle r w))
      = envelope <$> messages (w_db w)
  end.
Proof.
  assert (Hmap : ∀ (hit : message_row → bool) f (l : list message_row),
    (∀ x, envelope (f x) = envelope x) →
    envelope <$> map (fun x => if hit x then f x else x) l = envelope <$> l).
  { intros hit f l Hf. rewrite <- list_fmap_compose.
    apply list_fmap_ext. intros i x _. simpl. destruct (hit x); auto. }
  destruct r as [sk data cb|sk data|sk data cb|sk data|sk rid|sk rid|uid cb|u p q|u n p c|u ids|u mid|u mid c|sk|sk later];
    simpl; try done.
  - unfold get_history. destruct (gh_partnerId data); run_handler; done.
  - unfold edit_message. run_handler; try done.
    all: apply sql_update_content_Some in Hrun as [_ Hrun];
      unfold update_returning in Hrun; simplify_eq; simpl; by apply Hmap.
  - unfold typing. destruct rid; run_handler; done.
  - unfold stop_typing. destruct rid; run_handler; done.
  - unfold get_user_status. destruct uid; run_handler; done.
  - unfold rest_get_history. run_handler; done.
  - unfold rest_delete. run_handler; try done.
    all: by apply (Hmap _ (set_deleted (w_now w))).
  - unfold rest_edit. destruct c; run_handler; try done.
    all: apply sql_update_edit_Some in Hrun as (_ & _ & Hrun);
      unfold update_returning in Hrun; simplify_eq; simpl; by apply Hmap.
  - unfold disconnect, on_disconnect. run_handler; done.
Qed.

Lemma unread_count_envelope me p d d' :
  envelope <$> messages d' = envelope <$> messages d →
  unread_count me p d' = unread_count me p d.
Proof.
  unfold unread_count. generalize (messages d) (messages d').
  induction l as [|x l IH]; intros [|y l'] Heq; try done.
  rewrite !fmap_cons in Heq. unfold envelope at 1 3 in Heq.
  injection Heq as Hs Hr Hi Hrest.
  specialize (IH _ Hrest). rewrite !filter_cons.
  destruct (decide _) as [Hy|Hy], (decide _) as [Hx|Hx]; simpl;
    try (by rewrite IH).
  - destruct Hx. destruct Hy as (? & ? & ?). split_and!; congruence.
  - destruct Hy. destruct Hx as (? & ? & ?). split_and!; congruence.
Qed.

Lemma conversation_partners_envelope me d d' :
  envelope <$> messages d' = envelope <$> messages d →
  conversation_partners me d' = conversation_partners me d.
Proof.
  unfold conversation_partners. generalize (messages d) (messages d').
  induction l as [|x l IH]; intros [|y l'] Heq; try done.
  rewrite !fmap_cons in Heq. unfold envelope at 1 3 in Heq.
  injection Heq as Hs Hr Hi Hrest.
  specialize (IH _ Hrest). rewrite !filter_cons.
  assert (Hp : partner_of me y = partner_of me x).
  { unfold partner_of. by rewrite Hs, Hr. }
  destruct (decide _) as [Hy|Hy], (decide _) as [Hx|Hx]; simpl.
  - by rewrite Hp, IH.
  - destruct Hx. destruct Hy; [left|right]; congruence.
  - destruct Hy. destruct Hx; [left|right]; congruence.
  - done.
Qed.

(** X30. Edits and deletes do not move the conversation list. A request that
    is neither a send nor a mark-read, whatever its input and the
    store's faults, leaves every user's set of conversation partners and
    every unread count as they were; in particular an unread message
    that its sender deletes or edits still counts as unread. *)
Theorem edits_and_deletes_keep_the_unread_counts r w me p :
  match r with
  | Send_message _ _ _ | Rest_send _ _ _ _ | Mark_read _ _
  | Rest_mark_read _ _ => True
  | _ =>
      unread_count me p (w_db (handle r w)) = unread_count me p (w_db w)
      ∧ conversation_partners me (w_db (handle r w))
        = conversation_partners me (w_db w)
  end.
Proof.
  pose proof (handle_keeps_envelopes r w) as Hk.
  destruct r; try done;
    (split; [by apply unread_count_envelope
            |by apply conversation_partners_envelope]).
Qed.
